(** * appointee-buddy: dashboard revenue, search sanitising, doctor forms

    A shallow embedding of three pieces of the clinic application:

    - [Dashboard]: the revenue loop of [fetchTodayStats] (Dashboard page),
      together with the [appointments] rows it reads and the "last visit"
      query it issues for every return visit;
    - [SanitizeSearch]: [sanitizeSearchInput] of [src/utils/sanitizeSearch.ts];
    - [DoctorForms]: [validateAdd] and [validateEdit] of the Doctors page.

    JavaScript numbers are IEEE-754 doubles, so the monetary columns
    ([NUMERIC(10,2)], delivered by the client library as numbers) are
    primitive floats here.  [free_return_days] is an [INTEGER] column and
    [appointment_date] a [DATE] column: both are integers ([Z]), the date
    being the number of days since the epoch. *)

From Stdlib Require Import Floats ZArith List Bool String Ascii Permutation Lia.
Import ListNotations.

Set Warnings "-inexact-float".

(* ================================================================== *)
(** ** JavaScript values and operators used by the embedded code *)

Module JS.

(** Abrupt completion: the only exception the embedded code could raise by
    itself is the [TypeError] of a property read on [null]/[undefined]. *)
Inductive exn : Type := TypeError.

Inductive completion (A : Type) : Type :=
| Return (a : A)
| Throw (e : exn).
Arguments Return {A} a.
Arguments Throw {A} e.

Definition bind {A B : Type} (c : completion A) (k : A -> completion B)
  : completion B :=
  match c with
  | Return a => k a
  | Throw e => Throw e
  end.

(** A nullable number ([number | null | undefined]) is [option float];
    [null] and [undefined] are both [None]: the code only ever tests them
    for truthiness. *)
Definition truthy_number (v : float) : bool :=
  negb (PrimFloat.eqb v 0%float || PrimFloat.is_nan v).

Definition truthy (x : option float) : bool :=
  match x with
  | Some v => truthy_number v
  | None => false
  end.

Definition truthy_int (x : option Z) : bool :=
  match x with
  | Some n => negb (n =? 0)%Z
  | None => false
  end.

Definition truthy_bool (x : option bool) : bool :=
  match x with
  | Some b => b
  | None => false
  end.

Definition truthy_obj {A : Type} (x : option A) : bool :=
  match x with
  | Some _ => true
  | None => false
  end.

(** [x || y] on nullable numbers: the left operand when it is truthy, the
    right operand otherwise. *)
Definition or (x y : option float) : option float :=
  if truthy x then x else y.

(** [x || d] where [d] is a number literal. *)
Definition or_num (x : option float) (d : float) : float :=
  match x with
  | Some v => if truthy_number v then v else d
  | None => d
  end.

(** [o?.f]: optional chaining. *)
Definition opt_chain {A B : Type} (o : option A) (f : A -> option B)
  : option B :=
  match o with
  | Some a => f a
  | None => None
  end.

(** [o.f]: a plain property read, which throws on [null]. *)
Definition member {A B : Type} (o : option A) (f : A -> B) : completion B :=
  match o with
  | Some a => Return (f a)
  | None => Throw TypeError
  end.

(** [d <= x] for an integer [d] and a nullable integer [x] ([null] is
    converted to [0]). *)
Definition le_int (d : Z) (x : option Z) : bool :=
  match x with
  | Some n => (d <=? n)%Z
  | None => (d <=? 0)%Z
  end.

End JS.

Notation "x <- c ;; k" := (JS.bind c (fun x => k))
  (at level 61, c at next level, right associativity).

(** Two completions are told apart by comparing their values with a
    reference number. *)
Ltac returns_differ_at k :=
  let H := fresh "H" in
  intros H;
  apply (f_equal (fun c => match c with
                           | JS.Return v => PrimFloat.eqb v k
                           | JS.Throw _ => false
                           end)) in H;
  vm_compute in H; discriminate H.

(* ================================================================== *)
(** ** Dashboard: today's revenue *)

Module Dashboard.
Import JS.

(** The [appointment_status] enum of the schema. *)
Inductive appointment_status : Type :=
| scheduled | waiting | completed | return_ | cancelled.

Definition status_eqb (a b : appointment_status) : bool :=
  match a, b with
  | scheduled, scheduled | waiting, waiting | completed, completed
  | return_, return_ | cancelled, cancelled => true
  | _, _ => false
  end.

(** The embedded [doctors(consultation_fee, return_consultation_fee,
    free_return_days)] record of the select. *)
Record Doctor : Type := mkDoctor {
  consultation_fee : option float;
  return_consultation_fee : option float;
  free_return_days : option Z
}.

(** A row of [appointments] as the dashboard query returns it; [doctors]
    is the joined doctor, [None] when the join yields [null]. *)
Record Appointment : Type := mkAppointment {
  id : string;
  patient_id : string;
  doctor_id : string;
  appointment_date : Z;
  status : appointment_status;
  cost : option float;
  is_return_visit : option bool;
  doctors : option Doctor
}.

(** The projection [select('appointment_date, doctor_id')]. *)
Record LastVisit : Type := mkLastVisit {
  lv_appointment_date : Z;
  lv_doctor_id : string
}.

(** The [eq]/[neq] filters of the last-visit query. *)
Definition lastVisit_filter (apt r : Appointment) : bool :=
  String.eqb (patient_id r) (patient_id apt)
  && String.eqb (doctor_id r) (doctor_id apt)
  && status_eqb (status r) completed
  && negb (String.eqb (id r) (id apt)).

(** [order('appointment_date', {ascending: false}).limit(1)]: a row of
    greatest date.  Rows that tie on the date have the same projection. *)
Fixpoint latest (rows : list Appointment) : option Appointment :=
  match rows with
  | [] => None
  | r :: rest =>
      match latest rest with
      | Some m =>
          if (appointment_date m <=? appointment_date r)%Z
          then Some r else Some m
      | None => Some r
      end
  end.

(** The whole query, [maybeSingle()] included. *)
Definition query_lastVisit (db : list Appointment) (apt : Appointment)
  : option LastVisit :=
  match latest (filter (lastVisit_filter apt) db) with
  | Some r => Some (mkLastVisit (appointment_date r) (doctor_id r))
  | None => None
  end.

(** [new Date(d).getTime()] for a [DATE] value: UTC midnight in
    milliseconds. *)
Definition MS_PER_DAY : Z := 1000 * 60 * 60 * 24.

Definition getTime (d : Z) : Z := (d * MS_PER_DAY)%Z.

(** [Math.floor((currentDate.getTime() - lastVisitDate.getTime()) /
    (1000 * 60 * 60 * 24))]; [Z.div] rounds towards minus infinity. *)
Definition daysDiff (currentDate lastVisitDate : Z) : Z :=
  ((getTime currentDate - getTime lastVisitDate) / MS_PER_DAY)%Z.

(** [apt.cost || apt.doctors?.return_consultation_fee ||
     apt.doctors?.consultation_fee || 0] *)
Definition paid_return (apt : Appointment) : float :=
  or_num
    (or (or (cost apt) (opt_chain (doctors apt) return_consultation_fee))
        (opt_chain (doctors apt) consultation_fee))
    0%float.

(** [apt.cost || apt.doctors?.consultation_fee || 0] *)
Definition paid_regular (apt : Appointment) : float :=
  or_num (or (cost apt) (opt_chain (doctors apt) consultation_fee)) 0%float.

(** The amount one iteration of the loop adds to [totalRevenue]. *)
Definition contribution (db : list Appointment) (apt : Appointment)
  : completion float :=
  if truthy_bool (is_return_visit apt) then
    let lastVisit := query_lastVisit db apt in
    if truthy_obj lastVisit
       && truthy_int (opt_chain (doctors apt) free_return_days)
    then
      lastVisitDate <- member lastVisit lv_appointment_date ;;
      let currentDate := appointment_date apt in
      let daysDiff := daysDiff currentDate lastVisitDate in
      days <- member (doctors apt) free_return_days ;;
      if le_int daysDiff days
      then Return 0%float
      else Return (paid_return apt)
    else Return (paid_return apt)
  else Return (paid_regular apt).

(** [let totalRevenue = 0; for (const apt of completedAppointments)
    { totalRevenue += ... }] *)
Definition totalRevenue (db : list Appointment)
           (completedAppointments : list Appointment) : completion float :=
  fold_left
    (fun acc apt =>
       total <- acc ;;
       c <- contribution db apt ;;
       Return (total + c)%float)
    completedAppointments (Return 0%float).

(** The rows of the day and the revenue figure of [fetchTodayStats]. *)
Definition appointments (db : list Appointment) (today : Z)
  : list Appointment :=
  filter (fun apt => (appointment_date apt =? today)%Z) db.

Definition completedAppointments (rows : list Appointment)
  : list Appointment :=
  filter (fun apt => status_eqb (status apt) completed) rows.

Definition revenue (db : list Appointment) (today : Z) : completion float :=
  totalRevenue db (completedAppointments (appointments db today)).

End Dashboard.

(* ================================================================== *)
(** ** sanitizeSearchInput *)

Module SanitizeSearch.

(** The run-time values the function may be handed; the declared parameter
    type is [string], the body still tests [typeof].  A string is its
    sequence of bytes in UTF-8: the three characters the function looks for
    are single bytes that occur in no multi-byte character, as their UTF-16
    code units occur in no surrogate pair. *)
Inductive js_value : Type :=
| JSString (s : string)
| JSNumber (n : float)
| JSBoolean (b : bool)
| JSNull
| JSUndefined
| JSObject.

Definition backslash : ascii := ascii_of_nat 92.
Definition percent : ascii := ascii_of_nat 37.
Definition underscore : ascii := ascii_of_nat 95.

(** [s.replace(/c/g, by)] for a one-character pattern and a replacement
    text without [$]: every occurrence is replaced, left to right, and the
    replacement is not scanned again. *)
Fixpoint replace_all (c : ascii) (by_ : string) (s : string) : string :=
  match s with
  | EmptyString => EmptyString
  | String x rest =>
      if Ascii.eqb x c
      then (by_ ++ replace_all c by_ rest)%string
      else String x (replace_all c by_ rest)
  end.

Definition sanitizeSearchInput (input : js_value) : string :=
  match input with
  | JSString s =>
      if String.eqb s EmptyString then EmptyString
      else
        replace_all underscore (String backslash (String underscore EmptyString))
          (replace_all percent (String backslash (String percent EmptyString))
             (replace_all backslash
                (String backslash (String backslash EmptyString)) s))
  | _ => EmptyString
  end.

End SanitizeSearch.

(* ================================================================== *)
(** ** Doctor forms: validateAdd and validateEdit *)

Module DoctorForms.

(** [FormErrors]: field name and message, in assignment order. *)
Definition FormErrors : Type := list (string * string).

Record AddValues : Type := mkAddValues {
  add_user_id : string;
  add_doctor_name : string;
  add_specialization : string;
  add_license_number : string;
  add_consultation_fee : float;
  add_return_consultation_fee : float;
  add_free_return_days : float;
  add_working_hours_start : string;
  add_working_hours_end : string;
  add_bio : string;
  add_experience_years : float
}.

Record EditValues : Type := mkEditValues {
  edit_id : string;
  edit_doctor_name : string;
  edit_specialization : string;
  edit_license_number : string;
  edit_consultation_fee : float;
  edit_return_consultation_fee : float;
  edit_free_return_days : float;
  edit_working_hours_start : string;
  edit_working_hours_end : string;
  edit_bio : string;
  edit_experience_years : float
}.

(** [if (cond) errors.field = message;] *)
Definition flag (cond : bool) (field message : string) (errors : FormErrors)
  : FormErrors :=
  if cond then errors ++ [(field, message)] else errors.

(** [!s] for a string. *)
Definition empty_string (s : string) : bool := String.eqb s EmptyString.

Definition validateAdd (values : AddValues) : FormErrors :=
  let errors := [] in
  let errors := flag (empty_string (add_user_id values))
                     "user_id" "يجب اختيار مستخدم." errors in
  let errors := flag (empty_string (add_doctor_name values))
                     "doctor_name" "اسم الطبيب مطلوب." errors in
  let errors := flag (empty_string (add_specialization values))
                     "specialization" "التخصص مطلوب." errors in
  let errors := flag (PrimFloat.ltb (add_consultation_fee values) 0%float)
                     "consultation_fee" "الرسوم لا يمكن أن تكون سالبة." errors in
  let errors := flag (PrimFloat.ltb (add_free_return_days values) 0%float)
                     "free_return_days" "عدد أيام العودة لا يمكن أن يكون سالباً."
                     errors in
  errors.

Definition validateEdit (values : EditValues) : FormErrors :=
  let errors := [] in
  let errors := flag (empty_string (edit_doctor_name values))
                     "doctor_name" "اسم الطبيب مطلوب." errors in
  let errors := flag (empty_string (edit_specialization values))
                     "specialization" "التخصص مطلوب." errors in
  let errors := flag (PrimFloat.ltb (edit_consultation_fee values) 0%float)
                     "consultation_fee" "الرسوم لا يمكن أن تكون سالبة." errors in
  let errors := flag (PrimFloat.ltb (edit_free_return_days values) 0%float)
                     "free_return_days" "عدد أيام العودة لا يمكن أن يكون سالباً."
                     errors in
  errors.

End DoctorForms.

(* ================================================================== *)
(** ** The specification's vocabulary *)

Module Spec.
Import JS Dashboard.

(** [x ?? d]: only an absent value falls through. *)
Definition nullish (x : option float) (d : float) : float :=
  match x with
  | Some v => v
  | None => d
  end.

(** The specification's paid cascade
    [cost ?? return_consultation_fee ?? consultation_fee ?? 0]. *)
Definition paid_cascade_nullish (apt : Appointment) : float :=
  nullish (cost apt)
    (nullish (opt_chain (doctors apt) return_consultation_fee)
       (nullish (opt_chain (doctors apt) consultation_fee) 0%float)).

(** The specification's [cost ?? consultation_fee ?? 0]. *)
Definition regular_cascade_nullish (apt : Appointment) : float :=
  nullish (cost apt)
    (nullish (opt_chain (doctors apt) consultation_fee) 0%float).

(** The specification's cascade with the cost alone read by [||]:
    [cost || (return_consultation_fee ?? consultation_fee ?? 0)]. *)
Definition paid_cascade_truthy_cost (apt : Appointment) : float :=
  or_num (cost apt)
    (nullish (opt_chain (doctors apt) return_consultation_fee)
       (nullish (opt_chain (doctors apt) consultation_fee) 0%float)).

(** A fee that is unset, or set to a number other than zero and NaN. *)
Definition unset_or_nonzero (x : option float) : Prop :=
  x = None \/ truthy x = true.

(** A fee that is unset, [0], or a number other than zero and NaN. *)
Definition unset_zero_or_nonzero (x : option float) : Prop :=
  x = None \/ x = Some 0%float \/ truthy x = true.

(** The first value of a list that is set and truthy (neither zero nor
    NaN), [0] when there is none. *)
Fixpoint first_truthy (xs : list (option float)) : float :=
  match xs with
  | [] => 0%float
  | x :: rest => or_num x (first_truthy rest)
  end.

(** The fee candidates of a return visit, in priority order. *)
Definition return_fees (apt : Appointment) : list (option float) :=
  [cost apt;
   opt_chain (doctors apt) return_consultation_fee;
   opt_chain (doctors apt) consultation_fee].

Definition regular_fees (apt : Appointment) : list (option float) :=
  [cost apt; opt_chain (doctors apt) consultation_fee].

(** The doctor's grace window, when a doctor record is joined. *)
Definition free_window (apt : Appointment) : option Z :=
  opt_chain (doctors apt) free_return_days.

(** Another completed appointment [v] of the same patient with the same
    doctor. *)
Definition other_completed_visit (db : list Appointment)
           (apt v : Appointment) : Prop :=
  In v db
  /\ patient_id v = patient_id apt
  /\ doctor_id v = doctor_id apt
  /\ status v = completed
  /\ id v <> id apt.


(** The same without "strictly earlier": any other completed visit of the
    pair dated at most [n] days before the appointment (same-day and later
    visits included). *)
Definition other_completed_visit_within (db : list Appointment)
           (apt : Appointment) (n : Z) : Prop :=
  exists v, other_completed_visit db apt v
            /\ (appointment_date apt - appointment_date v <= n)%Z.

(** The free-return branch of the loop is taken. *)
Definition free_return (db : list Appointment) (apt : Appointment) : Prop :=
  exists n, free_window apt = Some n
            /\ n <> 0%Z
            /\ other_completed_visit_within db apt n.

(** The double that the whole number [z] rounds to; for a magnitude below
    [2 ^ 53] it is the number itself. *)
Definition whole (z : Z) : spec_float :=
  binary_normalize prec emax z 0 false.

(** The number [v] is the whole amount [z]. *)
Definition is_whole (v : float) (z : Z) : Prop := Prim2SF v = whole z.

(** A cost or fee that, when set, is a whole amount between 0 and
    [bound]. *)
Definition whole_fee (bound : Z) (x : option float) : Prop :=
  match x with
  | Some v => exists z, (0 <= z <= bound)%Z /\ is_whole v z
  | None => True
  end.

(** The cost and both fees of an appointment are whole amounts. *)
Definition whole_fees (bound : Z) (apt : Appointment) : Prop :=
  Forall (whole_fee bound) (return_fees apt).

(** One-pass escaping for LIKE patterns: a backslash is put before every
    backslash, percent sign and underscore, every other character is
    copied. *)
Definition is_like_special (c : ascii) : bool :=
  Ascii.eqb c SanitizeSearch.backslash
  || Ascii.eqb c SanitizeSearch.percent
  || Ascii.eqb c SanitizeSearch.underscore.

Fixpoint escape_like (s : string) : string :=
  match s with
  | EmptyString => EmptyString
  | String c rest =>
      if is_like_special c
      then String SanitizeSearch.backslash (String c (escape_like rest))
      else String c (escape_like rest)
  end.

(** Reading an escaped text back: a backslash makes the next character
    literal; a trailing lone backslash is malformed. *)
Fixpoint unescape_like (s : string) : option string :=
  match s with
  | EmptyString => Some EmptyString
  | String c rest =>
      if Ascii.eqb c SanitizeSearch.backslash then
        match rest with
        | EmptyString => None
        | String d rest' =>
            match unescape_like rest' with
            | Some r => Some (String d r)
            | None => None
            end
        end
      else
        match unescape_like rest with
        | Some r => Some (String c r)
        | None => None
        end
  end.

End Spec.

(* ================================================================== *)
(** ** Mantissas of doubles *)

Module Doubles.

(** The mantissa [p] shifted left by [k] binary places. *)
Definition shiftp (p : positive) (k : Z) : positive :=
  match k with
  | Zpos n => Pos.iter xO p n
  | _ => p
  end.

End Doubles.

(* ================================================================== *)
(** ** Concrete rows used in the examples *)

Module Samples.
Import JS Dashboard.

(** The doctor of the specification's worked example. *)
Definition doctor_50_30_7 : Doctor :=
  mkDoctor (Some 50%float) (Some 30%float) (Some 7%Z).

Definition doctor_no_return_fee : Doctor :=
  mkDoctor (Some 50%float) None (Some 7%Z).

(** The add-form defaults for the return fee ([0]) with a fee of 50. *)
Definition doctor_50_0_7 : Doctor :=
  mkDoctor (Some 50%float) (Some 0%float) (Some 7%Z).

Definition doctor_zero_window : Doctor :=
  mkDoctor (Some 50%float) (Some 30%float) (Some 0%Z).

Definition doctor_unset_window : Doctor :=
  mkDoctor (Some 50%float) None None.

(** A completed appointment of patient [p1] with doctor [d1]. *)
Definition visit (id_ : string) (date : Z) (cost_ : option float)
           (is_return : bool) (doc : option Doctor) : Appointment :=
  mkAppointment id_ "p1" "d1" date completed cost_ (Some is_return) doc.

(** A first, regular visit on day 0; every row of doctor [d1] carries the
    same joined doctor record. *)
Definition first_visit_of (doc : option Doctor) : Appointment :=
  visit "a1" 0 (Some 50%float) false doc.

Definition first_visit : Appointment :=
  first_visit_of (Some doctor_50_30_7).

Definition return_day7 : Appointment :=
  visit "a2" 7 None true (Some doctor_50_30_7).

Definition return_day8 : Appointment :=
  visit "a2" 8 None true (Some doctor_50_30_7).

Definition return_day8_no_return_fee : Appointment :=
  visit "a2" 8 None true (Some doctor_no_return_fee).

(** Two completed appointments of the same pair on the same day, the
    second one flagged as a return visit. *)
Definition morning_visit : Appointment :=
  visit "a1" 20 (Some 50%float) false (Some doctor_50_30_7).

Definition same_day_return : Appointment :=
  visit "a2" 20 (Some 40%float) true (Some doctor_50_30_7).

Definition same_day_db : list Appointment :=
  [morning_visit; same_day_return].

(** A regular visit whose recorded cost is the column default [0]. *)
Definition regular_cost_zero : Appointment :=
  visit "a3" 20 (Some 0%float) false (Some doctor_50_30_7).

(** A return visit on the day of the previous visit, for a doctor whose
    window is [0]. *)
Definition morning_visit_zero_window : Appointment :=
  visit "a1" 20 (Some 50%float) false (Some doctor_zero_window).

Definition same_day_return_zero_window : Appointment :=
  visit "a2" 20 (Some 40%float) true (Some doctor_zero_window).

Definition zero_window_db : list Appointment :=
  [morning_visit_zero_window; same_day_return_zero_window].

(** A return visit eight days after the previous one, its cost left at
    the column default [0]. *)
Definition return_day8_cost_zero : Appointment :=
  visit "a2" 8 (Some 0%float) true (Some doctor_50_30_7).

Definition day8_db : list Appointment :=
  [first_visit; return_day8_cost_zero].

(** A return visit without any history, for a doctor whose return fee is
    the form default [0]. *)
Definition return_no_history : Appointment :=
  visit "a2" 8 None true (Some doctor_50_0_7).

(** A return visit of a doctor without a window, cost at the default. *)
Definition return_unset_window : Appointment :=
  visit "a2" 1 (Some 0%float) true (Some doctor_unset_window).

Definition unset_window_db : list Appointment :=
  [first_visit_of (Some doctor_unset_window); return_unset_window].

(** An appointment whose doctor join is [null] and whose cost is unset. *)
Definition return_no_doctor : Appointment :=
  visit "a2" 3 None true None.

(** Three regular visits of one day costing 10.10, 20.20 and 30.30. *)
Definition visit_10_10 : Appointment :=
  mkAppointment "b1" "p1" "d1" 20 completed (Some 10.1%float) (Some false)
                (Some doctor_50_30_7).
Definition visit_20_20 : Appointment :=
  mkAppointment "b2" "p2" "d1" 20 completed (Some 20.2%float) (Some false)
                (Some doctor_50_30_7).
Definition visit_30_30 : Appointment :=
  mkAppointment "b3" "p3" "d1" 20 completed (Some 30.3%float) (Some false)
                (Some doctor_50_30_7).
Definition cents_db : list Appointment :=
  [visit_10_10; visit_20_20; visit_30_30].

(** The specification's three-appointment example. *)
Definition new_visit_100 : Appointment :=
  mkAppointment "c1" "p2" "d1" 7 completed (Some 100%float) (Some false)
                (Some doctor_50_30_7).
Definition old_visit_p3 : Appointment :=
  mkAppointment "c0" "p3" "d1" (-10) completed (Some 50%float) (Some false)
                (Some doctor_50_30_7).
Definition return_outside_40 : Appointment :=
  mkAppointment "c2" "p3" "d1" 7 completed (Some 40%float) (Some true)
                (Some doctor_50_30_7).
Definition example_db : list Appointment :=
  [first_visit; old_visit_p3; new_visit_100; return_day7; return_outside_40].

End Samples.

(* ================================================================== *)
(** ** String built-ins

    A string is its UTF-8 byte sequence (see [SanitizeSearch]); the
    definitions below read well-formed UTF-8. *)

Module JSString.

(** The number of UTF-16 code units a byte stands for: one for the first
    byte of a character of the basic plane, two for the first byte of a
    four-byte character, none for a continuation byte. *)
Definition units_of_byte (c : ascii) : nat :=
  let n := N_of_ascii c in
  if (n <? 128)%N then 1
  else if (n <? 192)%N then 0
  else if (n <? 240)%N then 1
  else 2.

(** [s.length] *)
Fixpoint js_length (s : string) : nat :=
  match s with
  | EmptyString => 0
  | String c rest => units_of_byte c + js_length rest
  end.

(** The white space and line terminators that [trim] removes, by encoded
    length: TAB, LF, VT, FF, CR, SPACE; *)
Definition is_ws1 (a : ascii) : bool :=
  let n := N_of_ascii a in
  ((9 <=? n)%N && (n <=? 13)%N) || (n =? 32)%N.

(** U+00A0; *)
Definition is_ws2 (a b : ascii) : bool :=
  (N_of_ascii a =? 194)%N && (N_of_ascii b =? 160)%N.

(** U+1680, U+2000 to U+200A, U+2028, U+2029, U+202F, U+205F, U+3000 and
    U+FEFF. *)
Definition is_ws3 (a b c : ascii) : bool :=
  let x := N_of_ascii a in
  let y := N_of_ascii b in
  let z := N_of_ascii c in
  ((x =? 225)%N && (y =? 154)%N && (z =? 128)%N)
  || ((x =? 226)%N && (y =? 128)%N
      && (((128 <=? z)%N && (z <=? 138)%N)
          || (z =? 168)%N || (z =? 169)%N || (z =? 175)%N))
  || ((x =? 226)%N && (y =? 129)%N && (z =? 159)%N)
  || ((x =? 227)%N && (y =? 128)%N && (z =? 128)%N)
  || ((x =? 239)%N && (y =? 187)%N && (z =? 191)%N).

(** Dropping the white space at the head of a byte list; [w2] and [w3]
    recognise the two- and three-byte characters. *)
Fixpoint drop_ws (w2 : ascii -> ascii -> bool)
         (w3 : ascii -> ascii -> ascii -> bool) (l : list ascii)
  : list ascii :=
  match l with
  | [] => []
  | a :: l1 =>
      if is_ws1 a then drop_ws w2 w3 l1
      else
        match l1 with
        | [] => l
        | b :: l2 =>
            if w2 a b then drop_ws w2 w3 l2
            else
              match l2 with
              | [] => l
              | c :: l3 => if w3 a b c then drop_ws w2 w3 l3 else l
              end
        end
  end.

Definition trimStart_bytes (l : list ascii) : list ascii :=
  drop_ws is_ws2 is_ws3 l.

(** The same from the end: the bytes are read backwards. *)
Definition trimEnd_bytes (l : list ascii) : list ascii :=
  rev (drop_ws (fun a b => is_ws2 b a) (fun a b c => is_ws3 c b a) (rev l)).

(** [s.trim()] *)
Definition trim (s : string) : string :=
  string_of_list_ascii
    (trimEnd_bytes (trimStart_bytes (list_ascii_of_string s))).

(** [s.includes(t)] *)
Fixpoint includes (s t : string) : bool :=
  if String.prefix t s then true
  else
    match s with
    | EmptyString => false
    | String _ rest => includes rest t
    end.

(** [s.split(sep)] for a one-character separator. *)
Fixpoint split (sep : ascii) (s : string) : list string :=
  match s with
  | EmptyString => [EmptyString]
  | String c rest =>
      if Ascii.eqb c sep then EmptyString :: split sep rest
      else
        match split sep rest with
        | h :: t => String c h :: t
        | [] => [String c EmptyString]
        end
  end.

(** The number of occurrences of a byte. *)
Fixpoint count (c : ascii) (s : string) : nat :=
  match s with
  | EmptyString => 0
  | String x rest => (if Ascii.eqb x c then 1 else 0) + count c rest
  end.

End JSString.

(* ================================================================== *)
(** ** isValidSearchTerm and the patient search of the sign-in page *)

Module SearchTerm.
Import SanitizeSearch JSString.

(** A parameter with a default value: [None] is an omitted argument. *)
Definition with_default (x : option Z) (d : Z) : Z :=
  match x with
  | Some v => v
  | None => d
  end.

(** [isValidSearchTerm(input, minLength = 2, maxLength = 100)], for integer
    bounds. *)
Definition isValidSearchTerm (input : js_value) (minLength maxLength : option Z)
  : bool :=
  let minLength := with_default minLength 2 in
  let maxLength := with_default maxLength 100 in
  match input with
  | JSString s =>
      if String.eqb s EmptyString then false
      else
        let trimmed := trim s in
        (minLength <=? Z.of_nat (js_length trimmed))%Z
        && (Z.of_nat (js_length trimmed) <=? maxLength)%Z
  | _ => false
  end.

(** What [searchPatient] does with a search term: it clears the results
    without a query, or queries [patients] with an [or] filter and a limit
    of 5. *)
Inductive search_action : Type :=
| ClearResults
| QueryPatients (or_filter : string) (limit : nat).

Definition searchPatient (searchTerm : string) : search_action :=
  if String.eqb searchTerm EmptyString || (js_length searchTerm <? 2)
  then ClearResults
  else
    let sanitizedTerm := sanitizeSearchInput (JSString (trim searchTerm)) in
    QueryPatients
      ("full_name.ilike.%" ++ sanitizedTerm
         ++ "%,phone.ilike.%" ++ sanitizedTerm ++ "%")%string
      5.

End SearchTerm.

(* ================================================================== *)
(** ** useSearch: filtering a list by a search term *)

Module UseSearch.
Import JS JSString.

(** The items are [Record<string, any>]: the hook only reads properties,
    tests for [null]/[undefined] and converts to text.  These operations of
    the run-time are the parameters of the embedding. *)
Class Runtime : Type := {
  value : Type;
  (** [v === null || v === undefined] *)
  is_nullish : value -> bool;
  (** [v[key]] *)
  get : value -> string -> completion value;
  (** a string as a value *)
  of_string : string -> value;
  (** [String(v || '')] *)
  text_or_empty : value -> completion string;
  (** [s.toLowerCase()] *)
  toLowerCase : string -> string
}.

Record SearchOptions : Type := mkSearchOptions {
  fields : list string;
  caseSensitive : option bool;
  minChars : option Z
}.

Section Hook.
Context {R : Runtime}.

(** The loop of [getNestedValue] over the keys of the path, and its final
    [return value ?? '']. *)
Fixpoint walk (keys : list string) (v : value) : completion value :=
  match keys with
  | [] => Return (if is_nullish v then of_string EmptyString else v)
  | key :: rest =>
      if is_nullish v then Return (of_string EmptyString)
      else
        v' <- get v key ;;
        walk rest v'
  end.

Definition dot : ascii := ascii_of_nat 46.

Definition getNestedValue (obj : value) (path : string) : completion value :=
  walk (split dot path) obj.

(** [options.caseSensitive ? s : s.toLowerCase()] *)
Definition normalise (options : SearchOptions) (s : string) : string :=
  if truthy_bool (caseSensitive options) then s else toLowerCase s.

(** The callback of [options.fields.some]. *)
Definition field_matches (options : SearchOptions) (term : string)
           (item : value) (field : string) : completion bool :=
  v <- getNestedValue item field ;;
  value <- text_or_empty v ;;
  let fieldValue := normalise options value in
  Return (includes fieldValue term).

(** [xs.some(f)]: stops at the first [true]. *)
Fixpoint some {A : Type} (f : A -> completion bool) (xs : list A)
  : completion bool :=
  match xs with
  | [] => Return false
  | x :: rest =>
      b <- f x ;;
      if b then Return true else some f rest
  end.

(** [xs.filter(f)] *)
Fixpoint filter_items {A : Type} (f : A -> completion bool) (xs : list A)
  : completion (list A) :=
  match xs with
  | [] => Return []
  | x :: rest =>
      b <- f x ;;
      kept <- filter_items f rest ;;
      Return (if b then x :: kept else kept)
  end.

(** [options.minChars || 0] *)
Definition min_chars (options : SearchOptions) : Z :=
  match minChars options with
  | Some n => if truthy_int (Some n) then n else 0%Z
  | None => 0%Z
  end.

(** The [useMemo] body that computes [filteredData]. *)
Definition filteredData (data : list value) (options : SearchOptions)
           (searchTerm : string) : completion (list value) :=
  if String.eqb searchTerm EmptyString
     || (Z.of_nat (js_length searchTerm) <? min_chars options)%Z
  then Return data
  else
    let term := normalise options searchTerm in
    filter_items
      (fun item => some (field_matches options term item) (fields options))
      data.

(** What the facts about the hook ask of the run-time: reading a property
    of a value that is neither [null] nor [undefined] returns, text
    conversion returns, and a string is not [null]. *)
Definition reads_return : Prop :=
  forall v key, is_nullish v = false -> exists x, get v key = Return x.

Definition text_returns : Prop :=
  forall v, exists s, text_or_empty v = Return s.

Definition strings_not_nullish : Prop :=
  forall s, is_nullish (of_string s) = false.

End Hook.

End UseSearch.

(* ================================================================== *)
(** ** Users page: roles and permissions *)

Module Users.
Import JS.

Inductive UserRole : Type := admin | doctor | receptionist | patient.

Definition role_eqb (a b : UserRole) : bool :=
  match a, b with
  | admin, admin | doctor, doctor | receptionist, receptionist
  | patient, patient => true
  | _, _ => false
  end.

(** A row of [role_permissions]. *)
Record RolePermission : Type := mkRolePermission {
  rp_id : string;
  rp_role : UserRole;
  rp_permission_name : string;
  rp_is_allowed : option bool
}.

(** The predicate of the two [rolePermissions.find] calls. *)
Definition is_permission (role : UserRole) (permissionName : string)
           (p : RolePermission) : bool :=
  role_eqb (rp_role p) role
  && String.eqb (rp_permission_name p) permissionName.

(** [names.includes(permissionName)] on an array of strings. *)
Definition includes_name (names : list string) (permissionName : string)
  : bool :=
  existsb (String.eqb permissionName) names.

(** [getPermissionValue]; the result is [permission.is_allowed], which the
    schema allows to be [null] ([None]). *)
Definition getPermissionValue (rolePermissions : list RolePermission)
           (role : UserRole) (permissionName : string) : option bool :=
  match find (is_permission role permissionName) rolePermissions with
  | None =>
      match role with
      | admin => Some true
      | doctor =>
          Some (includes_name
                  ["view_dashboard"; "manage_appointments";
                   "view_medical_records"; "edit_medical_records"]%string
                  permissionName)
      | receptionist =>
          Some (includes_name
                  ["view_dashboard"; "manage_appointments";
                   "manage_patients"; "manage_waiting_list"]%string
                  permissionName)
      | patient => Some false
      end
  | Some permission => rp_is_allowed permission
  end.

(** [update({ is_allowed }).eq('id', id)] on the table. *)
Definition update_is_allowed (id : string) (isAllowed : bool)
           (table : list RolePermission) : list RolePermission :=
  map (fun p =>
         if String.eqb (rp_id p) id
         then mkRolePermission (rp_id p) (rp_role p) (rp_permission_name p)
                               (Some isAllowed)
         else p)
      table.

(** [insert({ role, permission_name, is_allowed })]: the row gets the
    generated identifier [new_id]; the insert is refused when the table
    already has a row for the pair ([UNIQUE(role, permission_name)]) or the
    identifier ([PRIMARY KEY]). *)
Definition insert_permission (new_id : string) (role : UserRole)
           (permissionName : string) (isAllowed : bool)
           (table : list RolePermission) : list RolePermission :=
  if existsb (is_permission role permissionName) table
     || existsb (fun p => String.eqb (rp_id p) new_id) table
  then table
  else table ++ [mkRolePermission new_id role permissionName (Some isAllowed)].

(** The write of [updatePermission]: [rolePermissions] is the list the page
    holds, [table] the stored rows. *)
Definition updatePermission (rolePermissions : list RolePermission)
           (new_id : string) (role : UserRole) (permissionName : string)
           (isAllowed : bool) (table : list RolePermission)
  : list RolePermission :=
  match find (is_permission role permissionName) rolePermissions with
  | Some existingPermission =>
      update_is_allowed (rp_id existingPermission) isAllowed table
  | None => insert_permission new_id role permissionName isAllowed table
  end.





End Users.

(* ================================================================== *)
(** ** Doctors page: the edit form's initial values and its update *)

Module DoctorEdit.
Import JS DoctorForms.

(** A row of [doctors] as the client receives it. *)
Record DoctorRow : Type := mkDoctorRow {
  d_id : string;
  d_doctor_name : option string;
  d_specialization : string;
  d_license_number : option string;
  d_consultation_fee : option float;
  d_return_consultation_fee : option float;
  d_free_return_days : option float;
  d_working_hours_start : option string;
  d_working_hours_end : option string;
  d_bio : option string;
  d_experience_years : option float
}.

(** [x || d] on nullable strings: the empty string is falsy. *)
Definition or_str (x : option string) (d : string) : string :=
  match x with
  | Some s => if String.eqb s EmptyString then d else s
  | None => d
  end.

(** [s || null] *)
Definition or_null (s : string) : option string :=
  if String.eqb s EmptyString then None else Some s.

(** [initialEditValues], the [useMemo] over [selectedDoctor]. *)
Definition initialEditValues (selectedDoctor : option DoctorRow) : EditValues :=
  mkEditValues
    (or_str (option_map d_id selectedDoctor) EmptyString)
    (or_str (opt_chain selectedDoctor d_doctor_name) EmptyString)
    (or_str (option_map d_specialization selectedDoctor) EmptyString)
    (or_str (opt_chain selectedDoctor d_license_number) EmptyString)
    (or_num (opt_chain selectedDoctor d_consultation_fee) 0%float)
    (or_num (opt_chain selectedDoctor d_return_consultation_fee) 0%float)
    (or_num (opt_chain selectedDoctor d_free_return_days) 7%float)
    (or_str (opt_chain selectedDoctor d_working_hours_start) "08:00")
    (or_str (opt_chain selectedDoctor d_working_hours_end) "17:00")
    (or_str (opt_chain selectedDoctor d_bio) EmptyString)
    (or_num (opt_chain selectedDoctor d_experience_years) 0%float).

(** The object [handleEditDoctor] passes to [update], and the identifier of
    its [eq('id', values.id)]. *)
Record DoctorUpdate : Type := mkDoctorUpdate {
  u_doctor_name : string;
  u_specialization : string;
  u_license_number : option string;
  u_consultation_fee : float;
  u_return_consultation_fee : float;
  u_free_return_days : float;
  u_working_hours_start : string;
  u_working_hours_end : string;
  u_bio : option string;
  u_experience_years : float
}.

Definition editUpdate (values : EditValues) : string * DoctorUpdate :=
  (edit_id values,
   mkDoctorUpdate
     (edit_doctor_name values)
     (edit_specialization values)
     (or_null (edit_license_number values))
     (edit_consultation_fee values)
     (edit_return_consultation_fee values)
     (edit_free_return_days values)
     (edit_working_hours_start values)
     (edit_working_hours_end values)
     (or_null (edit_bio values))
     (edit_experience_years values)).

End DoctorEdit.

(* ================================================================== *)
(** ** Dashboard: the counters of today's statistics *)

Module DashboardStats.
Import JS Dashboard.

(** [appointments?.filter(apt => apt.status === 'scheduled' ||
    apt.status === 'waiting') || []] *)
Definition waitingAppointments (rows : list Appointment) : list Appointment :=
  filter (fun apt => status_eqb (status apt) scheduled
                     || status_eqb (status apt) waiting) rows.

(** The counters [appointments], [waiting] and [completed] of
    [setTodayStats]. *)
Definition stat_appointments (rows : list Appointment) : nat :=
  List.length rows.

Definition stat_waiting (rows : list Appointment) : nat :=
  List.length (waitingAppointments rows).

Definition stat_completed (rows : list Appointment) : nat :=
  List.length (completedAppointments rows).

End DashboardStats.

(* ================================================================== *)
(** ** Constraints of the stored tables and more sample data *)

Module Tables.
Import Users.

(** [UNIQUE(role, permission_name)] and [PRIMARY KEY (id)] of
    [role_permissions]. *)
Definition permission_key (p : RolePermission) : UserRole * string :=
  (rp_role p, rp_permission_name p).

Definition unique_permissions (table : list RolePermission) : Prop :=
  NoDup (map permission_key table).

Definition unique_ids (table : list RolePermission) : Prop :=
  NoDup (map rp_id table).

End Tables.

Module MoreSamples.
Import JS Dashboard Samples Users DoctorEdit UseSearch.

(** An appointment of another patient. *)
Definition other_patient_visit : Appointment :=
  mkAppointment "z1" "p9" "d1" 5 completed (Some 50%float) (Some false)
                (Some doctor_50_30_7).

(** A small permission table. *)
Definition doctor_reports_denied : RolePermission :=
  mkRolePermission "r1" doctor "view_reports" (Some false).

Definition admin_delete_denied : RolePermission :=
  mkRolePermission "r2" admin "delete_data" (Some false).

Definition permission_table : list RolePermission :=
  [doctor_reports_denied; admin_delete_denied].

(** A doctor whose free-return window is 0 and whose licence is unset. *)
Definition doctor_row_zero_window : DoctorRow :=
  mkDoctorRow "d1" (Some "Dr. A"%string) "general" None (Some 50%float)
              (Some 30%float) (Some 0%float) (Some "09:00"%string)
              (Some "17:00"%string) None (Some 3%float).

(** A run-time for the search hook whose values are text, [null] and
    objects with own properties; lower-casing is left out of it. *)
Set Warnings "-register-all".
Inductive json : Type :=
| JNull
| JText (s : string)
| JObject (properties : list (string * json)).

Fixpoint own_property (properties : list (string * json)) (key : string)
  : json :=
  match properties with
  | [] => JNull
  | (k, v) :: rest => if String.eqb k key then v else own_property rest key
  end.

Definition json_runtime : Runtime :=
  {| value := json;
     is_nullish := fun v => match v with JNull => true | _ => false end;
     get := fun v key =>
              match v with
              | JNull => Throw TypeError
              | JText _ => Return JNull
              | JObject properties => Return (own_property properties key)
              end;
     of_string := JText;
     text_or_empty := fun v =>
                        match v with
                        | JNull => Return EmptyString
                        | JText s => Return s
                        | JObject _ => Return "[object Object]"%string
                        end;
     toLowerCase := fun s => s |}.

Definition record_a : json :=
  JObject [("doctor_name"%string, JText "Amal");
           ("patients"%string,
            JObject [("full_name"%string, JText "Omar Said")])].

Definition record_b : json :=
  JObject [("doctor_name"%string, JNull);
           ("patients"%string, JNull)].

Definition record_fields : SearchOptions :=
  mkSearchOptions ["patients.full_name"; "doctor_name"]%string (Some true)
                  (Some 0%Z).

End MoreSamples.

(* ================================================================== *)
(** ** Facts about the JavaScript operators *)

Section OperatorFacts.
Import JS Spec.

Lemma truthy_number_nonzero (v : float) :
  truthy_number v = true -> v <> 0%float.
Proof.
  intros H E. subst v. vm_compute in H. discriminate.
Qed.

(** A positive number is truthy. *)
Lemma positive_truthy (v : float) :
  PrimFloat.ltb 0%float v = true -> truthy_number v = true.
Proof.
  unfold truthy_number, PrimFloat.is_nan.
  rewrite ltb_spec, !FloatAxioms.eqb_spec.
  change (Prim2SF 0%float) with (S754_zero false).
  unfold SFltb, SFeqb.
  destruct (Prim2SF v) as [s | s | | s m e]; cbn;
    try discriminate; try destruct s; cbn; try discriminate; auto.
  all: rewrite Pos.compare_refl, Z.compare_refl; reflexivity.
Qed.

Lemma or_num_or (x y : option float) (d : float) :
  or_num (or x y) d = or_num x (or_num y d).
Proof.
  unfold or. destruct x as [v |]; simpl; [| reflexivity].
  destruct (truthy_number v) eqn:T; simpl; [now rewrite T | reflexivity].
Qed.

Lemma or_num_truthy (x : option float) (d : float) :
  truthy x = true -> or_num x d = match x with Some v => v | None => d end.
Proof.
  destruct x as [v |]; simpl; [| discriminate]. now intros ->.
Qed.

Lemma or_num_falsy (x : option float) (d : float) :
  truthy x = false -> or_num x d = d.
Proof.
  destruct x as [v |]; simpl; [| reflexivity]. now intros ->.
Qed.

(** The cascade is zero exactly when no candidate is truthy. *)
Lemma first_truthy_zero (xs : list (option float)) :
  first_truthy xs = 0%float <-> Forall (fun x => truthy x = false) xs.
Proof.
  induction xs as [| x xs IH]; simpl.
  - split; [constructor | reflexivity].
  - destruct (truthy x) eqn:T.
    + rewrite (or_num_truthy _ _ T). destruct x as [v |]; [| discriminate].
      split.
      * intros E. exfalso. exact (truthy_number_nonzero v T E).
      * intros F. inversion F; subst. congruence.
    + rewrite (or_num_falsy _ _ T). rewrite IH. split.
      * intros F. now constructor.
      * intros F. now inversion F.
Qed.

(** A positive candidate makes the cascade non-zero. *)
Lemma first_truthy_positive (xs : list (option float)) (v : float) :
  In (Some v) xs -> PrimFloat.ltb 0%float v = true ->
  first_truthy xs <> 0%float.
Proof.
  intros Hin Hpos E. apply first_truthy_zero in E.
  rewrite Forall_forall in E. specialize (E _ Hin). simpl in E.
  rewrite (positive_truthy v Hpos) in E. discriminate.
Qed.

End OperatorFacts.

(* ================================================================== *)
(** ** Facts about the last-visit query and the loop body *)

Section DashboardFacts.
Import JS Dashboard Spec.

Lemma status_eqb_eq (a b : appointment_status) :
  status_eqb a b = true <-> a = b.
Proof.
  destruct a, b; simpl; split; intros H; try reflexivity; discriminate.
Qed.

(** Two midnights differ by a whole number of days. *)
Lemma daysDiff_days (currentDate lastVisitDate : Z) :
  daysDiff currentDate lastVisitDate = (currentDate - lastVisitDate)%Z.
Proof.
  unfold daysDiff, getTime. rewrite <- Z.mul_sub_distr_r.
  apply Z.div_mul. discriminate.
Qed.

Lemma latest_None (rows : list Appointment) :
  latest rows = None -> rows = [].
Proof.
  destruct rows as [| r rest]; simpl; [reflexivity |].
  destruct (latest rest) as [m |]; [| discriminate].
  destruct (appointment_date m <=? appointment_date r)%Z; discriminate.
Qed.

Lemma latest_In (rows : list Appointment) (m : Appointment) :
  latest rows = Some m -> In m rows.
Proof.
  revert m. induction rows as [| r rest IH]; simpl; intros m H.
  - discriminate.
  - destruct (latest rest) as [m' |].
    + destruct (appointment_date m' <=? appointment_date r)%Z;
        injection H as <-; auto.
    + injection H as <-. auto.
Qed.

Lemma latest_max (rows : list Appointment) (m : Appointment) :
  latest rows = Some m ->
  forall r, In r rows -> (appointment_date r <= appointment_date m)%Z.
Proof.
  revert m. induction rows as [| r0 rest IH]; simpl; intros m H r Hin.
  - contradiction.
  - destruct (latest rest) as [m' |] eqn:L.
    + specialize (IH m' eq_refl).
      destruct (appointment_date m' <=? appointment_date r0)%Z eqn:C;
        injection H as <-; destruct Hin as [<- | Hin].
      * lia.
      * apply Z.leb_le in C. specialize (IH r Hin). lia.
      * apply Z.leb_gt in C. lia.
      * auto.
    + apply latest_None in L. subst rest.
      injection H as <-. destruct Hin as [<- | []]. lia.
Qed.

Lemma lastVisit_filter_spec (db : list Appointment) (apt v : Appointment) :
  In v (filter (lastVisit_filter apt) db) <-> other_completed_visit db apt v.
Proof.
  rewrite filter_In. unfold lastVisit_filter, other_completed_visit.
  rewrite !andb_true_iff, negb_true_iff, !String.eqb_eq, status_eqb_eq.
  rewrite String.eqb_neq. tauto.
Qed.

Lemma query_lastVisit_None (db : list Appointment) (apt : Appointment) :
  query_lastVisit db apt = None <->
  forall v, ~ other_completed_visit db apt v.
Proof.
  unfold query_lastVisit. split.
  - destruct (latest _) as [m |] eqn:L; [discriminate |]. intros _ v Hv.
    apply latest_None in L. apply lastVisit_filter_spec in Hv.
    rewrite L in Hv. contradiction.
  - intros Hno. destruct (latest _) as [m |] eqn:L; [| reflexivity].
    apply latest_In, lastVisit_filter_spec in L. now apply Hno in L.
Qed.

Lemma query_lastVisit_Some (db : list Appointment) (apt : Appointment)
      (lv : LastVisit) :
  query_lastVisit db apt = Some lv ->
  (exists v, other_completed_visit db apt v
             /\ appointment_date v = lv_appointment_date lv)
  /\ (forall v, other_completed_visit db apt v ->
                (appointment_date v <= lv_appointment_date lv)%Z).
Proof.
  unfold query_lastVisit.
  destruct (latest _) as [m |] eqn:L; [| discriminate].
  intros H. injection H as <-. simpl. split.
  - exists m. split; [| reflexivity].
    now apply lastVisit_filter_spec, latest_In.
  - intros v Hv. apply (latest_max _ _ L).
    now apply lastVisit_filter_spec.
Qed.

(** Some other completed visit lies within [n] days exactly when the most
    recent one does. *)
Lemma within_iff_lastVisit (db : list Appointment) (apt : Appointment)
      (n : Z) :
  other_completed_visit_within db apt n <->
  exists lv, query_lastVisit db apt = Some lv
             /\ (appointment_date apt - lv_appointment_date lv <= n)%Z.
Proof.
  split.
  - intros (v & Hv & Hn).
    destruct (query_lastVisit db apt) as [lv |] eqn:Q.
    + exists lv. split; [reflexivity |].
      destruct (query_lastVisit_Some _ _ _ Q) as [_ Hmax].
      specialize (Hmax v Hv). lia.
    + exfalso. exact (proj1 (query_lastVisit_None db apt) Q v Hv).
  - intros (lv & Q & Hn).
    destruct (query_lastVisit_Some _ _ _ Q) as [(v & Hv & Hd) _].
    exists v. split; [assumption | lia].
Qed.


(** The loop body on a return visit, with the guards evaluated. *)
Lemma contribution_return (db : list Appointment) (apt : Appointment) :
  truthy_bool (is_return_visit apt) = true ->
  contribution db apt =
  match query_lastVisit db apt, free_window apt with
  | Some lv, Some n =>
      if negb (n =? 0)%Z
         && (appointment_date apt - lv_appointment_date lv <=? n)%Z
      then Return 0%float
      else Return (paid_return apt)
  | _, _ => Return (paid_return apt)
  end.
Proof.
  intros R. unfold contribution, free_window. rewrite R.
  destruct (query_lastVisit db apt) as [lv |]; simpl; [| reflexivity].
  destruct (doctors apt) as [doc |]; simpl; [| reflexivity].
  destruct (free_return_days doc) as [n |]; simpl; [| reflexivity].
  rewrite daysDiff_days.
  destruct (n =? 0)%Z; simpl; reflexivity.
Qed.

Lemma contribution_regular (db : list Appointment) (apt : Appointment) :
  truthy_bool (is_return_visit apt) = false ->
  contribution db apt = Return (paid_regular apt).
Proof.
  intros R. unfold contribution. now rewrite R.
Qed.

Lemma paid_return_first_truthy (apt : Appointment) :
  paid_return apt = first_truthy (return_fees apt).
Proof.
  unfold paid_return, return_fees. simpl. now rewrite !or_num_or.
Qed.

Lemma paid_regular_first_truthy (apt : Appointment) :
  paid_regular apt = first_truthy (regular_fees apt).
Proof.
  unfold paid_regular, regular_fees. simpl. now rewrite or_num_or.
Qed.

(** With a return fee that is unset or non-zero, the code's cascade is the
    specification's once the cost alone is read by [||]. *)
Lemma paid_return_truthy_cost (apt : Appointment) :
  unset_or_nonzero (opt_chain (doctors apt) return_consultation_fee) ->
  unset_zero_or_nonzero (opt_chain (doctors apt) consultation_fee) ->
  paid_return apt = paid_cascade_truthy_cost apt.
Proof.
  unfold paid_return, paid_cascade_truthy_cost. rewrite !or_num_or.
  intros Hrf Hcf. f_equal.
  destruct Hrf as [-> | T].
  - cbn [or_num nullish]. destruct Hcf as [-> | [-> | T]]; try reflexivity.
    rewrite (or_num_truthy _ _ T).
    destruct (opt_chain (doctors apt) consultation_fee);
      [reflexivity | discriminate].
  - rewrite (or_num_truthy _ _ T).
    destruct (opt_chain (doctors apt) return_consultation_fee);
      [reflexivity | discriminate].
Qed.

(** The free branch decided: the loop adds [0] for the grace window, the
    paid cascade otherwise. *)
Lemma contribution_free (db : list Appointment) (apt : Appointment) :
  truthy_bool (is_return_visit apt) = true ->
  free_return db apt -> contribution db apt = Return 0%float.
Proof.
  intros R (n & W & Hn & Hw). rewrite (contribution_return _ _ R), W.
  apply within_iff_lastVisit in Hw. destruct Hw as (lv & -> & Hle).
  apply Z.eqb_neq in Hn. rewrite Hn. apply Z.leb_le in Hle.
  now rewrite Hle.
Qed.

Lemma contribution_paid (db : list Appointment) (apt : Appointment) :
  truthy_bool (is_return_visit apt) = true ->
  ~ free_return db apt -> contribution db apt = Return (paid_return apt).
Proof.
  intros R NF. rewrite (contribution_return _ _ R).
  destruct (query_lastVisit db apt) as [lv |] eqn:Q; [| reflexivity].
  destruct (free_window apt) as [n |] eqn:W; [| reflexivity].
  destruct (n =? 0)%Z eqn:N0; simpl; [reflexivity |].
  destruct (appointment_date apt - lv_appointment_date lv <=? n)%Z eqn:C;
    [| reflexivity].
  exfalso. apply NF. exists n. split; [exact W |].
  apply Z.eqb_neq in N0. split; [assumption |].
  apply within_iff_lastVisit. exists lv. split; [assumption |].
  now apply Z.leb_le.
Qed.

(** Whether the free branch is taken is decidable. *)
Lemma free_return_dec (db : list Appointment) (apt : Appointment) :
  free_return db apt \/ ~ free_return db apt.
Proof.
  unfold free_return.
  destruct (free_window apt) as [n |] eqn:W.
  - destruct (Z.eq_dec n 0) as [-> | Hn].
    + right. intros (n' & E & Hn' & _). congruence.
    + destruct (query_lastVisit db apt) as [lv |] eqn:Q.
      * destruct (Z_le_gt_dec
                    (appointment_date apt - lv_appointment_date lv) n)
          as [Hle | Hgt].
        -- left. exists n. repeat split; auto.
           apply within_iff_lastVisit. eauto.
        -- right. intros (n' & E & _ & Hw). injection E as <-.
           apply within_iff_lastVisit in Hw.
           destruct Hw as (lv' & Q' & Hle). rewrite Q in Q'.
           injection Q' as <-. lia.
      * right. intros (n' & _ & _ & Hw).
        apply within_iff_lastVisit in Hw.
        destruct Hw as (lv' & Q' & _). congruence.
  - right. intros (n' & E & _). discriminate.
Qed.

(** Every iteration completes normally. *)
Lemma contribution_returns (db : list Appointment) (apt : Appointment) :
  exists v, contribution db apt = Return v.
Proof.
  destruct (truthy_bool (is_return_visit apt)) eqn:R.
  - rewrite (contribution_return _ _ R).
    destruct (query_lastVisit db apt), (free_window apt) as [n |]; eauto.
    destruct (negb (n =? 0)%Z && _); eauto.
  - rewrite (contribution_regular _ _ R). eauto.
Qed.

Lemma totalRevenue_returns_from (db l : list Appointment) (t0 : float) :
  exists t,
    fold_left
      (fun acc apt =>
         total <- acc ;; c <- contribution db apt ;;
         Return (total + c)%float)
      l (Return t0) = Return t.
Proof.
  revert t0. induction l as [| apt l IH]; intros t0; simpl.
  - eauto.
  - destruct (contribution_returns db apt) as [c ->]. simpl. apply IH.
Qed.

End DashboardFacts.

(* ================================================================== *)
(** ** The return-visit rule *)

Section ReturnVisits.
Import JS Dashboard Spec Samples.




(** C3, as stated, fails when the window is 0: the previous visit is
    exactly 0 days earlier, yet the guard on [free_return_days] is false
    and the visit is charged. *)
Lemma zero_window_boundary_is_charged :
  truthy_bool (is_return_visit same_day_return_zero_window) = true
  /\ free_window same_day_return_zero_window = Some 0%Z
  /\ query_lastVisit zero_window_db same_day_return_zero_window
     = Some (mkLastVisit 20 "d1")
  /\ (appointment_date same_day_return_zero_window - 20 = 0)%Z
  /\ contribution zero_window_db same_day_return_zero_window
     = Return 40%float
  /\ contribution zero_window_db same_day_return_zero_window
     <> Return 0%float.
Proof.
  repeat split; try reflexivity.
  returns_differ_at 0%float.
Qed.

(** C3 (amended): for a return visit whose doctor has a non-zero
    [free_return_days], the contribution is 0 when the most recent other
    completed visit of the same patient and doctor is exactly
    [free_return_days] days earlier, and more generally when any other
    completed visit of the pair is: the comparison is inclusive. *)
Theorem grace_window_boundary_inclusive
        (db : list Appointment) (apt : Appointment) (n : Z) :
  truthy_bool (is_return_visit apt) = true ->
  free_window apt = Some n ->
  n <> 0%Z ->
  (forall lv, query_lastVisit db apt = Some lv ->
              (appointment_date apt - lv_appointment_date lv = n)%Z ->
              contribution db apt = Return 0%float)
  /\ (forall v, other_completed_visit db apt v ->
                (appointment_date apt - appointment_date v = n)%Z ->
                contribution db apt = Return 0%float).
Proof.
  intros R W Hn. split.
  - intros lv Q D. rewrite (contribution_return _ _ R), Q, W.
    apply Z.eqb_neq in Hn. rewrite Hn, D, Z.leb_refl. reflexivity.
  - intros v Hv D. apply contribution_free; [assumption |].
    exists n. repeat split; try assumption. exists v. split; [assumption | lia].
Qed.

Lemma grace_window_boundary_inclusive_witness :
  truthy_bool (is_return_visit return_day7) = true
  /\ free_window return_day7 = Some 7%Z
  /\ (7 <> 0)%Z
  /\ query_lastVisit [first_visit; return_day7] return_day7
     = Some (mkLastVisit 0 "d1")
  /\ (appointment_date return_day7 - 0 = 7)%Z
  /\ contribution [first_visit; return_day7] return_day7 = Return 0%float.
Proof.
  split; [reflexivity |]. split; [reflexivity |]. split; [lia |].
  split; [reflexivity |]. split; [reflexivity |].
  apply (proj1 (grace_window_boundary_inclusive
                  [first_visit; return_day7] return_day7 7
                  eq_refl eq_refl ltac:(lia)) (mkLastVisit 0 "d1"));
    reflexivity.
Defined.

(** C4, as stated, fails: with the cost left at its column default 0 the
    code moves on to the return fee, where [??] would stop at the 0. *)
Lemma zero_cost_falls_through_outside_window :
  truthy_bool (is_return_visit return_day8_cost_zero) = true
  /\ free_window return_day8_cost_zero = Some 7%Z
  /\ query_lastVisit day8_db return_day8_cost_zero
     = Some (mkLastVisit 0 "d1")
  /\ (appointment_date return_day8_cost_zero - 0 = 7 + 1)%Z
  /\ contribution day8_db return_day8_cost_zero = Return 30%float
  /\ paid_cascade_nullish return_day8_cost_zero = 0%float
  /\ contribution day8_db return_day8_cost_zero
     <> Return (paid_cascade_nullish return_day8_cost_zero).
Proof.
  repeat split; try reflexivity.
  returns_differ_at 0%float.
Qed.

(** C4 (amended): for a return visit whose most recent other completed
    visit is [free_return_days + 1] days earlier, whose doctor's return fee
    is unset or non-zero and whose consultation fee is unset, 0 or
    non-zero, the contribution follows
    [cost || (return_consultation_fee ?? consultation_fee ?? 0)]: a cost
    of 0 is passed over like an unset one; it is non-zero whenever one of
    those fees is set and positive. *)
Theorem just_outside_window_is_paid
        (db : list Appointment) (apt : Appointment) (n : Z)
        (lv : LastVisit) :
  truthy_bool (is_return_visit apt) = true ->
  free_window apt = Some n ->
  query_lastVisit db apt = Some lv ->
  (appointment_date apt - lv_appointment_date lv = n + 1)%Z ->
  unset_or_nonzero (opt_chain (doctors apt) return_consultation_fee) ->
  unset_zero_or_nonzero (opt_chain (doctors apt) consultation_fee) ->
  contribution db apt = Return (paid_cascade_truthy_cost apt)
  /\ (forall v, In (Some v) (return_fees apt) ->
                PrimFloat.ltb 0%float v = true ->
                contribution db apt <> Return 0%float).
Proof.
  intros R W Q D Hrf Hcf.
  assert (C : contribution db apt = Return (paid_return apt)).
  { rewrite (contribution_return _ _ R), Q, W, D.
    replace (n + 1 <=? n)%Z with false by (symmetry; apply Z.leb_gt; lia).
    now rewrite andb_false_r. }
  split.
  - now rewrite C, (paid_return_truthy_cost apt Hrf Hcf).
  - intros v Hin Hpos E. rewrite C, paid_return_first_truthy in E.
    injection E as E. exact (first_truthy_positive _ _ Hin Hpos E).
Qed.

Lemma just_outside_window_is_paid_witness :
  truthy_bool (is_return_visit return_day8_cost_zero) = true
  /\ free_window return_day8_cost_zero = Some 7%Z
  /\ query_lastVisit day8_db return_day8_cost_zero
     = Some (mkLastVisit 0 "d1")
  /\ (appointment_date return_day8_cost_zero - 0 = 7 + 1)%Z
  /\ unset_or_nonzero
       (opt_chain (doctors return_day8_cost_zero) return_consultation_fee)
  /\ unset_zero_or_nonzero
       (opt_chain (doctors return_day8_cost_zero) consultation_fee)
  /\ contribution day8_db return_day8_cost_zero = Return 30%float.
Proof.
  split; [reflexivity |]. split; [reflexivity |].
  split; [reflexivity |]. split; [reflexivity |].
  split; [right; reflexivity |]. split; [right; right; reflexivity |].
  apply (proj1 (just_outside_window_is_paid
                  day8_db return_day8_cost_zero 7
                  (mkLastVisit 0 "d1") eq_refl eq_refl eq_refl eq_refl
                  (or_intror eq_refl) (or_intror (or_intror eq_refl)))).
Defined.

(** C5, as stated, fails: a return visit without history whose cost is left
    at the column default 0; the code moves on to the return fee, [??]
    would stop at the 0. *)
Lemma zero_cost_falls_through_without_history :
  truthy_bool (is_return_visit return_day8_cost_zero) = true
  /\ query_lastVisit [return_day8_cost_zero] return_day8_cost_zero = None
  /\ (forall v, ~ other_completed_visit [return_day8_cost_zero]
                  return_day8_cost_zero v)
  /\ contribution [return_day8_cost_zero] return_day8_cost_zero
     = Return 30%float
  /\ paid_cascade_nullish return_day8_cost_zero = 0%float
  /\ contribution [return_day8_cost_zero] return_day8_cost_zero
     <> Return (paid_cascade_nullish return_day8_cost_zero).
Proof.
  split; [reflexivity |]. split; [reflexivity |].
  split; [now apply query_lastVisit_None |].
  split; [reflexivity |]. split; [reflexivity |].
  returns_differ_at 0%float.
Qed.

(** C5 (amended): for a return visit with no other completed visit of the
    same patient and doctor, whose doctor's return fee is unset or non-zero
    and whose consultation fee is unset, 0 or non-zero, the contribution
    follows [cost || (return_consultation_fee ?? consultation_fee ?? 0)]:
    a cost of 0 is passed over like an unset one; the missing history
    never makes it 0. *)
Theorem no_history_is_paid (db : list Appointment) (apt : Appointment) :
  truthy_bool (is_return_visit apt) = true ->
  (forall v, ~ other_completed_visit db apt v) ->
  unset_or_nonzero (opt_chain (doctors apt) return_consultation_fee) ->
  unset_zero_or_nonzero (opt_chain (doctors apt) consultation_fee) ->
  contribution db apt = Return (paid_cascade_truthy_cost apt).
Proof.
  intros R Hno Hrf Hcf. apply query_lastVisit_None in Hno.
  rewrite (contribution_return _ _ R), Hno.
  now rewrite (paid_return_truthy_cost apt Hrf Hcf).
Qed.

Lemma no_history_is_paid_witness :
  truthy_bool (is_return_visit return_day8_cost_zero) = true
  /\ (forall v, ~ other_completed_visit [return_day8_cost_zero]
                  return_day8_cost_zero v)
  /\ unset_or_nonzero
       (opt_chain (doctors return_day8_cost_zero) return_consultation_fee)
  /\ unset_zero_or_nonzero
       (opt_chain (doctors return_day8_cost_zero) consultation_fee)
  /\ contribution [return_day8_cost_zero] return_day8_cost_zero
     = Return 30%float.
Proof.
  assert (Hno : forall v, ~ other_completed_visit [return_day8_cost_zero]
                            return_day8_cost_zero v).
  { intros v (Hin & _ & _ & _ & Hid). simpl in Hin.
    destruct Hin as [<- | []]. now apply Hid. }
  split; [reflexivity |]. split; [exact Hno |].
  split; [right; reflexivity |]. split; [right; right; reflexivity |].
  apply (no_history_is_paid [return_day8_cost_zero] return_day8_cost_zero
                            eq_refl Hno (or_intror eq_refl)
                            (or_intror (or_intror eq_refl))).
Defined.

(** C8, as stated, fails on the cascade it names: no window, the cost at
    its column default 0; the code charges the consultation fee, [??]
    would stop at the 0. *)
Lemma zero_cost_falls_through_without_window :
  truthy_bool (is_return_visit return_unset_window) = true
  /\ free_window return_unset_window = None
  /\ contribution unset_window_db return_unset_window = Return 50%float
  /\ paid_cascade_nullish return_unset_window = 0%float
  /\ contribution unset_window_db return_unset_window
     <> Return (paid_cascade_nullish return_unset_window).
Proof.
  repeat split; try reflexivity.
  returns_differ_at 0%float.
Qed.

(** C8 (amended): for a return visit whose doctor's [free_return_days] is
    0 or unset, the free branch is never taken and the contribution is the
    same whatever visits are stored; when the doctor's return fee is unset
    or non-zero and the consultation fee is unset, 0 or non-zero, it
    follows [cost || (return_consultation_fee ?? consultation_fee ?? 0)]:
    a cost of 0 is passed over like an unset one. *)
Theorem no_window_never_free (db : list Appointment) (apt : Appointment) :
  truthy_bool (is_return_visit apt) = true ->
  free_window apt = None \/ free_window apt = Some 0%Z ->
  ~ free_return db apt
  /\ (forall db', contribution db' apt = contribution db apt)
  /\ (unset_or_nonzero (opt_chain (doctors apt) return_consultation_fee) ->
      unset_zero_or_nonzero (opt_chain (doctors apt) consultation_fee) ->
      contribution db apt = Return (paid_cascade_truthy_cost apt)).
Proof.
  intros R W.
  assert (P : forall d, contribution d apt = Return (paid_return apt)).
  { intros d. rewrite (contribution_return _ _ R).
    destruct W as [-> | ->]; destruct (query_lastVisit d apt); reflexivity. }
  split; [| split].
  - intros (n & E & Hn & _). destruct W as [W | W]; congruence.
  - intros db'. now rewrite !P.
  - intros Hrf Hcf. now rewrite P, (paid_return_truthy_cost apt Hrf Hcf).
Qed.

Lemma no_window_never_free_witness :
  truthy_bool (is_return_visit return_unset_window) = true
  /\ (free_window return_unset_window = None
      \/ free_window return_unset_window = Some 0%Z)
  /\ unset_or_nonzero
       (opt_chain (doctors return_unset_window) return_consultation_fee)
  /\ unset_zero_or_nonzero
       (opt_chain (doctors return_unset_window) consultation_fee)
  /\ contribution unset_window_db return_unset_window = Return 50%float.
Proof.
  split; [reflexivity |]. split; [left; reflexivity |].
  split; [left; reflexivity |]. split; [right; right; reflexivity |].
  apply (proj2 (proj2 (no_window_never_free
                         unset_window_db return_unset_window
                         eq_refl (or_introl eq_refl)))).
  - left; reflexivity.
  - right; right; reflexivity.
Defined.

End ReturnVisits.

(* ================================================================== *)
(** ** Regular visits, missing data and the daily total *)

Section DailyTotal.
Import JS Dashboard Spec Samples.

(** C2, as stated, fails: a recorded cost of 0 (the column default) is
    present, yet the code moves on to the doctor's consultation fee. *)
Lemma zero_cost_regular_visit_charged_fee :
  truthy_bool (is_return_visit regular_cost_zero) = false
  /\ cost regular_cost_zero = Some 0%float
  /\ contribution [regular_cost_zero] regular_cost_zero = Return 50%float
  /\ regular_cascade_nullish regular_cost_zero = 0%float
  /\ contribution [regular_cost_zero] regular_cost_zero
     <> Return (regular_cascade_nullish regular_cost_zero).
Proof.
  repeat split; try reflexivity.
  returns_differ_at 0%float.
Qed.

(** C2 (amended): for an appointment that is not a return visit, the
    contribution is the cost when it is set and non-zero, else the
    doctor's consultation_fee when it is set and non-zero, else 0; it is
    the same whatever visits are stored. *)
Theorem regular_visit_contribution
        (db : list Appointment) (apt : Appointment) :
  truthy_bool (is_return_visit apt) = false ->
  contribution db apt = Return (first_truthy (regular_fees apt))
  /\ (forall db', contribution db' apt = contribution db apt).
Proof.
  intros R. split.
  - now rewrite (contribution_regular _ _ R), paid_regular_first_truthy.
  - intros db'. now rewrite !(contribution_regular _ _ R).
Qed.

Lemma regular_visit_contribution_witness :
  truthy_bool (is_return_visit new_visit_100) = false
  /\ contribution example_db new_visit_100 = Return 100%float.
Proof.
  split; [reflexivity |].
  apply (proj1 (regular_visit_contribution example_db new_visit_100
                                           eq_refl)).
Defined.

(** C7: no iteration and no run of the loop throws, whatever is missing.
    Without a doctor record the contribution is the cost, 0 when that is
    absent too.  With an absent cost, a regular visit is charged the
    consultation fee and a return visit outside the free branch the return
    fee; with the return fee absent as well, the consultation fee; each
    time 0 when nothing is left, and 0 whenever all three are absent. *)
Theorem absent_fees_fall_through
        (db l : list Appointment) (apt : Appointment) :
  (exists v, contribution db apt = Return v)
  /\ (exists t, totalRevenue db l = Return t)
  /\ (doctors apt = None ->
      (cost apt = None -> contribution db apt = Return 0%float)
      /\ (forall v, cost apt = Some v -> truthy_number v = true ->
                    contribution db apt = Return v))
  /\ (truthy_bool (is_return_visit apt) = false ->
      cost apt = None ->
      (forall v, opt_chain (doctors apt) consultation_fee = Some v ->
                 truthy_number v = true ->
                 contribution db apt = Return v)
      /\ (opt_chain (doctors apt) consultation_fee = None ->
          contribution db apt = Return 0%float))
  /\ (truthy_bool (is_return_visit apt) = true ->
      ~ free_return db apt ->
      cost apt = None ->
      (forall v, opt_chain (doctors apt) return_consultation_fee = Some v ->
                 truthy_number v = true ->
                 contribution db apt = Return v)
      /\ (opt_chain (doctors apt) return_consultation_fee = None ->
          (forall v, opt_chain (doctors apt) consultation_fee = Some v ->
                     truthy_number v = true ->
                     contribution db apt = Return v)
          /\ (opt_chain (doctors apt) consultation_fee = None ->
              contribution db apt = Return 0%float)))
  /\ (cost apt = None ->
      opt_chain (doctors apt) return_consultation_fee = None ->
      opt_chain (doctors apt) consultation_fee = None ->
      contribution db apt = Return 0%float).
Proof.
  split; [apply contribution_returns |].
  split; [apply totalRevenue_returns_from |].
  split; [| split; [| split]].
  - intros D.
    assert (C : contribution db apt = Return (or_num (cost apt) 0%float)).
    { destruct (truthy_bool (is_return_visit apt)) eqn:R.
      - rewrite (contribution_return _ _ R).
        unfold free_window, paid_return. rewrite D. cbn [opt_chain].
        rewrite !or_num_or. cbn [or_num].
        destruct (query_lastVisit db apt); reflexivity.
      - rewrite (contribution_regular _ _ R).
        unfold paid_regular. rewrite D. cbn [opt_chain].
        rewrite !or_num_or. reflexivity. }
    rewrite C. split.
    + now intros ->.
    + intros v -> T. cbn [or_num]. now rewrite T.
  - intros R C. rewrite (contribution_regular _ _ R).
    unfold paid_regular. rewrite C, or_num_or. cbn [or_num]. split.
    + intros v -> T. cbn [or_num]. now rewrite T.
    + now intros ->.
  - intros R NF C. rewrite (contribution_paid _ _ R NF).
    unfold paid_return. rewrite C, !or_num_or. cbn [or_num]. split.
    + intros v -> T. cbn [or_num]. now rewrite T.
    + intros ->. cbn [or_num]. split.
      * intros v -> T. cbn [or_num]. now rewrite T.
      * now intros ->.
  - intros C RF CF.
    destruct (truthy_bool (is_return_visit apt)) eqn:R.
    + rewrite (contribution_return _ _ R).
      unfold paid_return. rewrite C, RF, CF. simpl.
      destruct (query_lastVisit db apt), (free_window apt) as [n |];
        try reflexivity.
      destruct (negb (n =? 0)%Z && _); reflexivity.
    + rewrite (contribution_regular _ _ R).
      unfold paid_regular. now rewrite C, CF.
Qed.

Lemma absent_fees_fall_through_witness :
  truthy_bool (is_return_visit return_day8_no_return_fee) = true
  /\ ~ free_return [first_visit_of (Some doctor_no_return_fee);
                    return_day8_no_return_fee] return_day8_no_return_fee
  /\ cost return_day8_no_return_fee = None
  /\ opt_chain (doctors return_day8_no_return_fee) return_consultation_fee
     = None
  /\ opt_chain (doctors return_day8_no_return_fee) consultation_fee
     = Some 50%float
  /\ contribution [first_visit_of (Some doctor_no_return_fee);
                   return_day8_no_return_fee] return_day8_no_return_fee
     = Return 50%float.
Proof.
  assert (NF : ~ free_return [first_visit_of (Some doctor_no_return_fee);
                              return_day8_no_return_fee]
                 return_day8_no_return_fee).
  { intros (n & W & _ & v & (Hin & _ & _ & _ & Hid) & Hle).
    injection W as <-. simpl in Hin.
    destruct Hin as [<- | [<- | []]]; [simpl in Hle; lia | now apply Hid]. }
  split; [reflexivity |]. split; [exact NF |].
  split; [reflexivity |]. split; [reflexivity |]. split; [reflexivity |].
  destruct (absent_fees_fall_through
              [first_visit_of (Some doctor_no_return_fee);
               return_day8_no_return_fee] [] return_day8_no_return_fee)
    as (_ & _ & _ & _ & H & _).
  destruct (H eq_refl NF eq_refl) as [_ H2].
  destruct (H2 eq_refl) as [H3 _].
  exact (H3 50%float eq_refl eq_refl).
Defined.

(** The worked examples of the specification. *)
Example spec_example_day7 :
  contribution [first_visit; return_day7] return_day7 = Return 0%float.
Proof. reflexivity. Qed.

Example spec_example_day8 :
  contribution [first_visit; return_day8] return_day8 = Return 30%float.
Proof. reflexivity. Qed.

Example spec_example_day8_no_return_fee :
  contribution [first_visit_of (Some doctor_no_return_fee);
                return_day8_no_return_fee]
               return_day8_no_return_fee = Return 50%float.
Proof. reflexivity. Qed.

Example spec_example_three_appointments :
  revenue example_db 7 = Return 140%float
  /\ Forall (fun l => totalRevenue example_db l = Return 140%float)
            [[new_visit_100; return_day7; return_outside_40];
             [new_visit_100; return_outside_40; return_day7];
             [return_day7; new_visit_100; return_outside_40];
             [return_day7; return_outside_40; new_visit_100];
             [return_outside_40; new_visit_100; return_day7];
             [return_outside_40; return_day7; new_visit_100]].
Proof. split; [reflexivity |]. repeat constructor. Qed.

(** An appointment without a joined doctor record and without a cost
    adds nothing. *)
Example no_doctor_record_adds_nothing :
  contribution [first_visit_of None; return_no_doctor] return_no_doctor
  = Return 0%float.
Proof. reflexivity. Qed.

(** A return fee of exactly 0 is passed over as well, and the consultation
    fee charged. *)
Example zero_return_fee_is_skipped :
  contribution [return_no_history] return_no_history = Return 50%float.
Proof. reflexivity. Qed.

End DailyTotal.

(* ================================================================== *)
(** ** sanitizeSearchInput escapes LIKE wildcards *)

Section SanitizeFacts.
Import SanitizeSearch Spec.

Lemma replace_all_hit (c : ascii) (by_ rest : string) :
  replace_all c by_ (String c rest)
  = (by_ ++ replace_all c by_ rest)%string.
Proof.
  simpl. now rewrite Ascii.eqb_refl.
Qed.

Lemma replace_all_miss (c x : ascii) (by_ rest : string) :
  Ascii.eqb x c = false ->
  replace_all c by_ (String x rest) = String x (replace_all c by_ rest).
Proof.
  intros H. simpl. now rewrite H.
Qed.

(** The three successive replacements amount to one escaping pass: the
    backslashes inserted by a pass are never touched by a later one. *)
Lemma three_passes_escape (s : string) :
  replace_all underscore (String backslash (String underscore EmptyString))
    (replace_all percent (String backslash (String percent EmptyString))
       (replace_all backslash
          (String backslash (String backslash EmptyString)) s))
  = escape_like s.
Proof.
  induction s as [| c s IH]; [reflexivity |].
  cbn [escape_like]. unfold is_like_special.
  destruct (Ascii.eqb c backslash) eqn:B.
  - apply Ascii.eqb_eq in B. subst c. cbn [orb].
    rewrite replace_all_hit. cbn [append].
    rewrite !(replace_all_miss percent backslash) by reflexivity.
    rewrite !(replace_all_miss underscore backslash) by reflexivity.
    now rewrite IH.
  - rewrite (replace_all_miss _ _ _ _ B). cbn [orb].
    destruct (Ascii.eqb c percent) eqn:P.
    + apply Ascii.eqb_eq in P. subst c. cbn [orb].
      rewrite replace_all_hit. cbn [append].
      rewrite (replace_all_miss underscore backslash) by reflexivity.
      rewrite (replace_all_miss underscore percent) by reflexivity.
      now rewrite IH.
    + rewrite (replace_all_miss _ _ _ _ P). cbn [orb].
      destruct (Ascii.eqb c underscore) eqn:U.
      * apply Ascii.eqb_eq in U. subst c.
        rewrite replace_all_hit. cbn [append]. now rewrite IH.
      * rewrite (replace_all_miss _ _ _ _ U). now rewrite IH.
Qed.

Lemma unescape_escaped (d : ascii) (rest : string) :
  unescape_like (String backslash (String d rest))
  = match unescape_like rest with
    | Some r => Some (String d r)
    | None => None
    end.
Proof. reflexivity. Qed.

Lemma unescape_plain (c : ascii) (rest : string) :
  Ascii.eqb c backslash = false ->
  unescape_like (String c rest)
  = match unescape_like rest with
    | Some r => Some (String c r)
    | None => None
    end.
Proof.
  intros H. cbn [unescape_like]. now rewrite H.
Qed.

(** Escaping can be undone: nothing is escaped twice and nothing is
    lost. *)
Lemma unescape_escape (s : string) :
  unescape_like (escape_like s) = Some s.
Proof.
  induction s as [| c s IH]; [reflexivity |].
  cbn [escape_like]. destruct (is_like_special c) eqn:S.
  - now rewrite unescape_escaped, IH.
  - unfold is_like_special in S.
    apply orb_false_iff in S. destruct S as [S _].
    apply orb_false_iff in S. destruct S as [B _].
    now rewrite (unescape_plain _ _ B), IH.
Qed.

(** C9: on a string, [sanitizeSearchInput] puts one backslash before every
    backslash, percent sign and underscore of the input and copies every
    other character; the inserted backslashes are not escaped again, so
    the input can be read back; the empty string and every non-string
    value give the empty string. *)
Theorem sanitizeSearchInput_escapes :
  (forall s, sanitizeSearchInput (JSString s) = escape_like s)
  /\ (forall s,
         unescape_like (sanitizeSearchInput (JSString s)) = Some s)
  /\ sanitizeSearchInput (JSString EmptyString) = EmptyString
  /\ (forall n, sanitizeSearchInput (JSNumber n) = EmptyString)
  /\ (forall b, sanitizeSearchInput (JSBoolean b) = EmptyString)
  /\ sanitizeSearchInput JSNull = EmptyString
  /\ sanitizeSearchInput JSUndefined = EmptyString
  /\ sanitizeSearchInput JSObject = EmptyString.
Proof.
  assert (E : forall s, sanitizeSearchInput (JSString s) = escape_like s).
  { intros s. unfold sanitizeSearchInput.
    destruct (String.eqb s EmptyString) eqn:Z.
    - apply String.eqb_eq in Z. now subst s.
    - apply three_passes_escape. }
  split; [exact E |].
  split; [intros s; rewrite E; apply unescape_escape |].
  repeat split.
Qed.

Example sanitize_sample :
  sanitizeSearchInput (JSString "50%_a\b") = "50\%\_a\\b"%string.
Proof. reflexivity. Qed.

End SanitizeFacts.

(* ================================================================== *)
(** ** The doctor form validators *)

Section DoctorFormFacts.
Import DoctorForms.

Lemma flag_nil (cond : bool) (field message : string) (errors : FormErrors) :
  flag cond field message errors = [] -> cond = false /\ errors = [].
Proof.
  unfold flag. destruct cond; [| auto].
  intros H. apply app_eq_nil in H. destruct H as [_ H]. discriminate.
Qed.

(** A set of values that [validateAdd] accepts has neither a negative
    consultation fee nor a negative number of free-return days. *)
Lemma validateAdd_accepts_no_negative (values : AddValues) :
  validateAdd values = [] ->
  PrimFloat.ltb (add_consultation_fee values) 0%float = false
  /\ PrimFloat.ltb (add_free_return_days values) 0%float = false.
Proof.
  unfold validateAdd. intros H.
  apply flag_nil in H. destruct H as [Hdays H].
  apply flag_nil in H. destruct H as [Hfee _]. auto.
Qed.

Lemma validateEdit_accepts_no_negative (values : EditValues) :
  validateEdit values = [] ->
  PrimFloat.ltb (edit_consultation_fee values) 0%float = false
  /\ PrimFloat.ltb (edit_free_return_days values) 0%float = false.
Proof.
  unfold validateEdit. intros H.
  apply flag_nil in H. destruct H as [Hdays H].
  apply flag_nil in H. destruct H as [Hfee _]. auto.
Qed.

End DoctorFormFacts.

(* ================================================================== *)
(** ** More about sanitizeSearchInput *)

Section SanitizeMore.
Import SanitizeSearch Spec JSString.

Lemma sanitize_string_is_escape (s : string) :
  sanitizeSearchInput (JSString s) = escape_like s.
Proof.
  unfold sanitizeSearchInput.
  destruct (String.eqb s EmptyString) eqn:Z.
  - apply String.eqb_eq in Z. now subst s.
  - apply three_passes_escape.
Qed.

Lemma special_cases (c : ascii) :
  (if is_like_special c then 1 else 0)
  = (if Ascii.eqb c backslash then 1 else 0)
    + (if Ascii.eqb c percent then 1 else 0)
    + (if Ascii.eqb c underscore then 1 else 0).
Proof.
  unfold is_like_special.
  destruct (Ascii.eqb c backslash) eqn:B.
  - apply Ascii.eqb_eq in B. now subst c.
  - destruct (Ascii.eqb c percent) eqn:P.
    + apply Ascii.eqb_eq in P. now subst c.
    + now destruct (Ascii.eqb c underscore).
Qed.

Lemma escape_like_length (s : string) :
  String.length (escape_like s)
  = String.length s + (count backslash s + count percent s
                       + count underscore s).
Proof.
  induction s as [| c s IH]; [reflexivity |].
  cbn [escape_like count String.length].
  pose proof (special_cases c) as H.
  destruct (is_like_special c); cbn [String.length]; rewrite IH; lia.
Qed.

(** X1: the sanitised text is the input plus one byte for every backslash,
    percent sign and underscore of the input; it is never shorter than the
    input. *)
Theorem sanitize_length (s : string) :
  String.length (sanitizeSearchInput (JSString s))
  = String.length s + (count backslash s + count percent s
                       + count underscore s)
  /\ String.length s <= String.length (sanitizeSearchInput (JSString s)).
Proof.
  rewrite sanitize_string_is_escape, escape_like_length. split; lia.
Qed.

Lemma escape_like_id (s : string) :
  count backslash s + count percent s + count underscore s = 0 ->
  escape_like s = s.
Proof.
  induction s as [| c s IH]; [reflexivity |].
  cbn [escape_like count]. intros H.
  pose proof (special_cases c) as S.
  destruct (is_like_special c); [lia |].
  f_equal. apply IH. lia.
Qed.

(** X2: a string is returned unchanged exactly when it contains no
    backslash, no percent sign and no underscore. *)
Theorem sanitize_unchanged_iff (s : string) :
  sanitizeSearchInput (JSString s) = s
  <-> count backslash s = 0 /\ count percent s = 0 /\ count underscore s = 0.
Proof.
  rewrite sanitize_string_is_escape. split.
  - intros E. pose proof (escape_like_length s) as L. rewrite E in L. lia.
  - intros (B & P & U). apply escape_like_id. lia.
Qed.

Lemma escape_like_app (a b : string) :
  escape_like (a ++ b) = (escape_like a ++ escape_like b)%string.
Proof.
  induction a as [| c a IH]; [reflexivity |].
  cbn [append escape_like].
  destruct (is_like_special c); cbn [append]; now rewrite IH.
Qed.

(** X3: sanitising a concatenation is concatenating the sanitised parts. *)
Theorem sanitize_app (a b : string) :
  sanitizeSearchInput (JSString (a ++ b))
  = (sanitizeSearchInput (JSString a)
       ++ sanitizeSearchInput (JSString b))%string.
Proof.
  rewrite !sanitize_string_is_escape. apply escape_like_app.
Qed.

(** X4: different strings have different sanitised texts. *)
Theorem sanitize_injective (a b : string) :
  sanitizeSearchInput (JSString a) = sanitizeSearchInput (JSString b) ->
  a = b.
Proof.
  rewrite !sanitize_string_is_escape. intros E.
  pose proof (unescape_escape a) as Ha. rewrite E, unescape_escape in Ha.
  now injection Ha.
Qed.

Lemma sanitize_injective_witness :
  sanitizeSearchInput (JSString "a_b") = sanitizeSearchInput (JSString "a_b")
  /\ "a_b"%string = "a_b"%string.
Proof.
  split; [reflexivity |].
  apply (sanitize_injective "a_b" "a_b" eq_refl).
Defined.

Lemma count_app (c : ascii) (a b : string) :
  count c (a ++ b) = count c a + count c b.
Proof.
  induction a as [| x a IH]; [reflexivity |].
  cbn [append count]. rewrite IH. lia.
Qed.

Lemma escape_like_count_other (c : ascii) (s : string) :
  is_like_special c = false ->
  count c (escape_like s) = count c s.
Proof.
  intros Hc. induction s as [| x s IH]; [reflexivity |].
  cbn [escape_like count].
  destruct (is_like_special x) eqn:Sx; cbn [count]; rewrite IH.
  - replace (Ascii.eqb backslash c) with false; [reflexivity |].
    symmetry. apply Ascii.eqb_neq. intros <-. discriminate.
  - reflexivity.
Qed.

End SanitizeMore.

(* ================================================================== *)
(** ** trim, the patient search and isValidSearchTerm *)

Section SearchTermFacts.
Import SanitizeSearch Spec JSString SearchTerm.

Lemma string_of_list_ascii_app (a b : list ascii) :
  string_of_list_ascii (a ++ b)
  = (string_of_list_ascii a ++ string_of_list_ascii b)%string.
Proof.
  induction a as [| x a IH]; [reflexivity |]. simpl. now rewrite IH.
Qed.

Lemma js_length_app (a b : string) :
  js_length (a ++ b) = js_length a + js_length b.
Proof.
  induction a as [| x a IH]; [reflexivity |].
  cbn [append js_length]. rewrite IH. lia.
Qed.

(** What [drop_ws] returns is a suffix of its argument. *)
Lemma drop_ws_suffix w2 w3 (l : list ascii) :
  exists p, l = p ++ drop_ws w2 w3 l.
Proof.
  remember (List.length l) as n eqn:Hn. revert l Hn.
  induction n as [n IH] using lt_wf_ind. intros l Hn.
  destruct l as [| a l1]; [exists []; reflexivity |].
  cbn [drop_ws]. destruct (is_ws1 a).
  - destruct (IH (List.length l1)) with (l := l1) as [p Hp];
      [subst n; simpl; lia | reflexivity |].
    exists (a :: p). simpl. now rewrite <- Hp.
  - destruct l1 as [| b l2]; [exists []; reflexivity |].
    destruct (w2 a b).
    + destruct (IH (List.length l2)) with (l := l2) as [p Hp];
        [subst n; simpl; lia | reflexivity |].
      exists (a :: b :: p). simpl. now rewrite <- Hp.
    + destruct l2 as [| c l3]; [exists []; reflexivity |].
      destruct (w3 a b c).
      * destruct (IH (List.length l3)) with (l := l3) as [p Hp];
          [subst n; simpl; lia | reflexivity |].
        exists (a :: b :: c :: p). simpl. now rewrite <- Hp.
      * exists []. reflexivity.
Qed.

(** The trimmed text is a part of the text. *)
Lemma trim_middle (s : string) :
  exists p q, s = (string_of_list_ascii p ++ trim s
                     ++ string_of_list_ascii q)%string.
Proof.
  unfold trim, trimEnd_bytes, trimStart_bytes.
  set (l := list_ascii_of_string s).
  destruct (drop_ws_suffix is_ws2 is_ws3 l) as [p Hp].
  set (m := drop_ws is_ws2 is_ws3 l) in *.
  destruct (drop_ws_suffix (fun a b => is_ws2 b a)
                           (fun a b c => is_ws3 c b a) (rev m)) as [q Hq].
  set (r := drop_ws _ _ (rev m)) in *.
  exists p, (rev q).
  rewrite <- !string_of_list_ascii_app.
  assert (Hm : m = rev r ++ rev q).
  { rewrite <- rev_app_distr, <- Hq. now rewrite rev_involutive. }
  rewrite <- Hm, <- Hp. unfold l.
  now rewrite string_of_list_ascii_of_string.
Qed.

Lemma js_length_trim (s : string) : js_length (trim s) <= js_length s.
Proof.
  destruct (trim_middle s) as (p & q & E).
  rewrite E at 2. rewrite !js_length_app. lia.
Qed.

Lemma drop_ws_all_ws1 w2 w3 (l : list ascii) :
  Forall (fun c => is_ws1 c = true) l -> drop_ws w2 w3 l = [].
Proof.
  induction 1 as [| a l Ha _ IH]; [reflexivity |].
  cbn [drop_ws]. now rewrite Ha.
Qed.

Lemma trim_blank (s : string) :
  Forall (fun c => is_ws1 c = true) (list_ascii_of_string s) ->
  trim s = EmptyString.
Proof.
  intros H. unfold trim, trimStart_bytes.
  now rewrite (drop_ws_all_ws1 _ _ _ H).
Qed.

Lemma js_length_blank (s : string) :
  Forall (fun c => is_ws1 c = true) (list_ascii_of_string s) ->
  js_length s = String.length s.
Proof.
  induction s as [| c s IH]; [reflexivity |].
  cbn [list_ascii_of_string js_length String.length]. intros H.
  inversion H as [| ? ? Hc Hs]; subst. rewrite (IH Hs). f_equal.
  unfold units_of_byte. unfold is_ws1 in Hc.
  destruct (N_of_ascii c <? 128)%N eqn:L; [reflexivity |].
  apply N.ltb_ge in L.
  apply orb_true_iff in Hc. destruct Hc as [Hc | Hc].
  - apply andb_true_iff in Hc. destruct Hc as [_ Hc].
    apply N.leb_le in Hc. lia.
  - apply N.eqb_eq in Hc. lia.
Qed.

(** X5: a search term of two or more blanks (spaces, tabs, line breaks) is
    not rejected: the length is tested before the term is trimmed, and the
    query is issued with an empty pattern between the two wildcards. *)
Theorem searchPatient_blank_term (searchTerm : string) :
  Forall (fun c => is_ws1 c = true) (list_ascii_of_string searchTerm) ->
  2 <= String.length searchTerm ->
  searchPatient searchTerm
  = QueryPatients "full_name.ilike.%%,phone.ilike.%%" 5.
Proof.
  intros Hws Hlen. unfold searchPatient.
  rewrite (js_length_blank _ Hws), (trim_blank _ Hws).
  destruct searchTerm as [| c s]; [simpl in Hlen; lia |].
  cbn [String.eqb orb].
  replace (String.length (String c s) <? 2) with false
    by (symmetry; apply Nat.ltb_ge; exact Hlen).
  reflexivity.
Qed.

Lemma searchPatient_blank_term_witness :
  Forall (fun c => is_ws1 c = true) (list_ascii_of_string "  ")
  /\ 2 <= String.length "  "
  /\ searchPatient "  "
     = QueryPatients "full_name.ilike.%%,phone.ilike.%%" 5.
Proof.
  split; [repeat constructor |]. split; [simpl; lia |].
  apply (searchPatient_blank_term "  ").
  - repeat constructor.
  - simpl; lia.
Defined.

Lemma searchPatient_cases (searchTerm : string) :
  searchPatient searchTerm = ClearResults
  \/ searchPatient searchTerm
     = QueryPatients
         ("full_name.ilike.%" ++ escape_like (trim searchTerm)
            ++ "%,phone.ilike.%" ++ escape_like (trim searchTerm) ++ "%")
         5.
Proof.
  unfold searchPatient.
  destruct (String.eqb searchTerm EmptyString
            || (js_length searchTerm <? 2)); [now left | right].
  now rewrite sanitize_string_is_escape.
Qed.

(** X6: when a query is issued its limit is 5, and every byte other than
    backslash, percent sign and underscore occurs in the [or] filter as
    often as in the filter of an empty term plus twice as often as in the
    trimmed term: commas, dots and parentheses of the term reach the
    filter as they are. *)
Theorem searchPatient_filter_bytes
        (searchTerm or_filter : string) (limit : nat) (c : ascii) :
  searchPatient searchTerm = QueryPatients or_filter limit ->
  is_like_special c = false ->
  limit = 5
  /\ count c or_filter
     = count c "full_name.ilike.%%,phone.ilike.%%"
       + 2 * count c (trim searchTerm).
Proof.
  intros H Hc.
  destruct (searchPatient_cases searchTerm) as [E | E];
    rewrite E in H; [discriminate |].
  assert (Hl : limit = 5) by congruence.
  assert (Hf : or_filter
               = ("full_name.ilike.%" ++ escape_like (trim searchTerm)
                    ++ "%,phone.ilike.%" ++ escape_like (trim searchTerm)
                    ++ "%")%string) by congruence.
  split; [exact Hl |]. rewrite Hf.
  rewrite !count_app, !(escape_like_count_other c _ Hc).
  change "full_name.ilike.%%,phone.ilike.%%"%string
    with ("full_name.ilike.%" ++ "%,phone.ilike.%" ++ "%")%string.
  rewrite !count_app. lia.
Qed.

Lemma searchPatient_filter_bytes_witness :
  searchPatient "a,b"
  = QueryPatients "full_name.ilike.%a,b%,phone.ilike.%a,b%" 5
  /\ is_like_special (ascii_of_nat 44) = false
  /\ count (ascii_of_nat 44) "full_name.ilike.%a,b%,phone.ilike.%a,b%" = 3.
Proof.
  split; [reflexivity |]. split; [reflexivity |].
  apply (proj2 (searchPatient_filter_bytes
                  "a,b" "full_name.ilike.%a,b%,phone.ilike.%a,b%" 5
                  (ascii_of_nat 44) eq_refl eq_refl)).
Defined.

(** X7: a term that [isValidSearchTerm] accepts is a string whose length,
    before trimming as well, reaches the minimum, and the bounds are then
    ordered; a string of blanks is never accepted for a minimum of one or
    more (the default is two). *)
Theorem isValidSearchTerm_accepts
        (input : js_value) (minLength maxLength : option Z) :
  isValidSearchTerm input minLength maxLength = true ->
  exists s,
    input = JSString s
    /\ (with_default minLength 2 <= Z.of_nat (js_length (trim s))
        <= with_default maxLength 100)%Z
    /\ (with_default minLength 2 <= Z.of_nat (js_length s))%Z
    /\ (with_default minLength 2 <= with_default maxLength 100)%Z
    /\ ((1 <= with_default minLength 2)%Z ->
        ~ Forall (fun c => is_ws1 c = true) (list_ascii_of_string s)).
Proof.
  unfold isValidSearchTerm. destruct input as [s | | | | |]; try discriminate.
  destruct (String.eqb s EmptyString); [discriminate |].
  intros H. apply andb_true_iff in H. destruct H as [Hmin Hmax].
  apply Z.leb_le in Hmin, Hmax.
  pose proof (js_length_trim s) as Ht.
  exists s. repeat split; try lia.
  intros Hpos Hws. rewrite (trim_blank _ Hws) in Hmin. simpl in Hmin. lia.
Qed.

Lemma isValidSearchTerm_accepts_witness :
  isValidSearchTerm (JSString " ab ") None None = true
  /\ exists s, JSString " ab " = JSString s
               /\ (2 <= Z.of_nat (js_length s))%Z.
Proof.
  split; [reflexivity |].
  destruct (isValidSearchTerm_accepts (JSString " ab ") None None eq_refl)
    as (s & E & _ & L & _).
  exists s. split; [exact E | exact L].
Defined.

End SearchTermFacts.

(* ================================================================== *)
(** ** More about the dashboard *)

Section DashboardMore.
Import JS Dashboard Spec Samples MoreSamples DashboardStats.

Lemma contribution_query_ext (db db' : list Appointment) (apt : Appointment) :
  query_lastVisit db apt = query_lastVisit db' apt ->
  contribution db apt = contribution db' apt.
Proof.
  intros E. unfold contribution. now rewrite E.
Qed.

Lemma unrelated_row_filtered (apt r : Appointment) :
  patient_id r <> patient_id apt \/ doctor_id r <> doctor_id apt
  \/ status r <> completed \/ id r = id apt ->
  lastVisit_filter apt r = false.
Proof.
  intros H. destruct (lastVisit_filter apt r) eqn:F; [| reflexivity].
  exfalso.
  assert (Hin : In r (filter (lastVisit_filter apt) [r]))
    by (simpl; rewrite F; now left).
  apply lastVisit_filter_spec in Hin.
  destruct Hin as (_ & P & D & S & I). tauto.
Qed.

(** X8: a stored appointment that belongs to another patient or another
    doctor, that is not completed, or that is the appointment itself, has
    no influence on the contribution: the amount is the same with and
    without that row. *)
Theorem contribution_ignores_unrelated_row
        (db1 db2 : list Appointment) (r apt : Appointment) :
  patient_id r <> patient_id apt \/ doctor_id r <> doctor_id apt
  \/ status r <> completed \/ id r = id apt ->
  contribution (db1 ++ r :: db2) apt = contribution (db1 ++ db2) apt.
Proof.
  intros H. apply contribution_query_ext. unfold query_lastVisit.
  rewrite !filter_app. cbn [filter].
  now rewrite (unrelated_row_filtered _ _ H).
Qed.

Lemma contribution_ignores_unrelated_row_witness :
  (patient_id other_patient_visit <> patient_id return_day7
   \/ doctor_id other_patient_visit <> doctor_id return_day7
   \/ status other_patient_visit <> completed
   \/ id other_patient_visit = id return_day7)
  /\ contribution ([first_visit] ++ other_patient_visit :: [return_day7])
                  return_day7
     = contribution ([first_visit] ++ [return_day7]) return_day7.
Proof.
  assert (H : patient_id other_patient_visit <> patient_id return_day7)
    by discriminate.
  split; [left; exact H |].
  apply (contribution_ignores_unrelated_row
           [first_visit] [return_day7] other_patient_visit return_day7
           (or_introl H)).
Defined.

Lemma query_lastVisit_doctor (db : list Appointment) (apt : Appointment)
      (lv : LastVisit) :
  query_lastVisit db apt = Some lv -> lv_doctor_id lv = doctor_id apt.
Proof.
  unfold query_lastVisit.
  destruct (latest _) as [m |] eqn:L; [| discriminate].
  intros H. injection H as <-. simpl.
  apply latest_In, lastVisit_filter_spec in L.
  now destruct L as (_ & _ & D & _).
Qed.

Lemma other_completed_visit_perm (db db' : list Appointment)
      (apt v : Appointment) :
  Permutation db db' ->
  other_completed_visit db apt v -> other_completed_visit db' apt v.
Proof.
  intros P (Hin & H). split; [| exact H].
  now apply (Permutation_in _ P).
Qed.

Lemma query_lastVisit_perm (db db' : list Appointment) (apt : Appointment) :
  Permutation db db' ->
  query_lastVisit db apt = query_lastVisit db' apt.
Proof.
  intros P.
  destruct (query_lastVisit db apt) as [lv |] eqn:Q;
    destruct (query_lastVisit db' apt) as [lv' |] eqn:Q'.
  - pose proof (query_lastVisit_doctor _ _ _ Q) as D.
    pose proof (query_lastVisit_doctor _ _ _ Q') as D'.
    destruct (query_lastVisit_Some _ _ _ Q) as [(v & Hv & Ev) Hmax].
    destruct (query_lastVisit_Some _ _ _ Q') as [(v' & Hv' & Ev') Hmax'].
    pose proof (Hmax' v (other_completed_visit_perm _ _ _ _ P Hv)) as L1.
    pose proof (Hmax v' (other_completed_visit_perm _ _ _ _
                           (Permutation_sym P) Hv')) as L2.
    destruct lv as [d i], lv' as [d' i']. simpl in *.
    f_equal. f_equal; [lia | congruence].
  - exfalso.
    destruct (query_lastVisit_Some _ _ _ Q) as [(v & Hv & _) _].
    exact (proj1 (query_lastVisit_None db' apt) Q' v
                 (other_completed_visit_perm _ _ _ _ P Hv)).
  - exfalso.
    destruct (query_lastVisit_Some _ _ _ Q') as [(v & Hv & _) _].
    exact (proj1 (query_lastVisit_None db apt) Q v
                 (other_completed_visit_perm _ _ _ _
                    (Permutation_sym P) Hv)).
  - reflexivity.
Qed.

(** X9: the order in which the stored appointments are held does not
    matter: the last-visit query and the contribution are the same for
    every reordering of the rows, also when several visits share the
    latest date. *)
Theorem contribution_row_order (db db' : list Appointment)
        (apt : Appointment) :
  Permutation db db' ->
  query_lastVisit db apt = query_lastVisit db' apt
  /\ contribution db apt = contribution db' apt.
Proof.
  intros P. pose proof (query_lastVisit_perm _ _ apt P) as Q.
  split; [exact Q | now apply contribution_query_ext].
Qed.

Lemma contribution_row_order_witness :
  Permutation same_day_db (rev same_day_db)
  /\ contribution same_day_db same_day_return
     = contribution (rev same_day_db) same_day_return.
Proof.
  split; [apply Permutation_rev |].
  apply (proj2 (contribution_row_order same_day_db (rev same_day_db)
                  same_day_return (Permutation_rev same_day_db))).
Defined.

Lemma first_truthy_cases (xs : list (option float)) :
  first_truthy xs = 0%float
  \/ (In (Some (first_truthy xs)) xs
      /\ truthy_number (first_truthy xs) = true).
Proof.
  induction xs as [| x xs IH]; [now left |].
  cbn [first_truthy]. destruct x as [v |]; cbn [or_num].
  - destruct (truthy_number v) eqn:T.
    + right. split; [now left | exact T].
    + destruct IH as [Z | [Hin T']]; [now left |].
      right. split; [now right | exact T'].
  - destruct IH as [Z | [Hin T']]; [now left |].
    right. split; [now right | exact T'].
Qed.

Lemma truthy_not_nan (v : float) :
  truthy_number v = true -> PrimFloat.is_nan v = false.
Proof.
  unfold truthy_number. intros H. apply negb_true_iff in H.
  apply orb_false_iff in H. now destruct H.
Qed.

(** X10: whatever the data, the amount an appointment adds is never NaN,
    and it is either 0 or one of the appointment's own fee candidates (its
    cost, the doctor's return fee for a return visit, the doctor's
    consultation fee): a NaN cost or fee is skipped, and no other amount
    is ever made up. *)
Theorem contribution_is_zero_or_a_fee
        (db : list Appointment) (apt : Appointment) :
  exists v,
    contribution db apt = Return v
    /\ PrimFloat.is_nan v = false
    /\ (v = 0%float
        \/ In (Some v) (if truthy_bool (is_return_visit apt)
                        then return_fees apt else regular_fees apt)).
Proof.
  assert (Z0 : PrimFloat.is_nan 0%float = false) by reflexivity.
  destruct (truthy_bool (is_return_visit apt)) eqn:R.
  - destruct (free_return_dec db apt) as [F | NF].
    + exists 0%float. rewrite (contribution_free _ _ R F). auto.
    + exists (paid_return apt). rewrite (contribution_paid _ _ R NF).
      split; [reflexivity |]. rewrite paid_return_first_truthy.
      destruct (first_truthy_cases (return_fees apt)) as [E | [Hin T]].
      * rewrite E. auto.
      * split; [now apply truthy_not_nan | now right].
  - exists (paid_regular apt). rewrite (contribution_regular _ _ R).
    split; [reflexivity |]. rewrite paid_regular_first_truthy.
    destruct (first_truthy_cases (regular_fees apt)) as [E | [Hin T]].
    + rewrite E. auto.
    + split; [now apply truthy_not_nan | now right].
Qed.

Lemma counters_partition (rows : list Appointment) :
  stat_completed rows + stat_waiting rows
  + List.length (filter (fun apt => status_eqb (status apt) return_
                                    || status_eqb (status apt) cancelled)
                        rows)
  = stat_appointments rows.
Proof.
  unfold stat_completed, stat_waiting, stat_appointments,
    completedAppointments, waitingAppointments.
  induction rows as [| r rows IH]; [reflexivity |].
  cbn [filter List.length]. destruct (status r); simpl; lia.
Qed.

Lemma filter_length_zero {A : Type} (p : A -> bool) (l : list A) :
  List.length (filter p l) = 0 <-> Forall (fun x => p x = false) l.
Proof.
  induction l as [| x l IH]; simpl.
  - split; [constructor | reflexivity].
  - destruct (p x) eqn:P; simpl.
    + split; [discriminate |]. intros H. inversion H. congruence.
    + rewrite IH. split; [now constructor | intros H; now inversion H].
Qed.

(** X11: the counters of the day: completed and waiting appointments are
    counted apart and never exceed the number of appointments; the two
    counters add up to it exactly when no appointment of the day has
    status return or cancelled. *)
Theorem counters_of_the_day (rows : list Appointment) :
  stat_completed rows + stat_waiting rows <= stat_appointments rows
  /\ (stat_completed rows + stat_waiting rows = stat_appointments rows
      <-> Forall (fun apt => status apt <> return_
                             /\ status apt <> cancelled) rows)
  /\ (forall apt, In apt (completedAppointments rows) ->
                  ~ In apt (waitingAppointments rows)).
Proof.
  pose proof (counters_partition rows) as P.
  split; [lia | split].
  - transitivity
      (List.length
         (filter (fun apt => status_eqb (status apt) return_
                             || status_eqb (status apt) cancelled) rows)
       = 0); [lia |].
    rewrite filter_length_zero. split; apply Forall_impl; intros apt H.
    + destruct (status apt); simpl in H; try discriminate;
        split; discriminate.
    + destruct H as [H1 H2]. destruct (status apt); simpl; congruence.
  - intros apt Hc Hw. apply filter_In in Hc, Hw.
    destruct Hc as [_ Hc], Hw as [_ Hw].
    apply status_eqb_eq in Hc. rewrite Hc in Hw. discriminate.
Qed.

End DashboardMore.

(* ================================================================== *)
(** ** The daily total of whole amounts *)

Section ExactTotals.
Import JS Dashboard Spec Samples Doubles.
Local Open Scope Z_scope.

(** Shifting a mantissa multiplies it by a power of two and adds to its
    number of digits. *)
Lemma iter_xO_Z (p n : positive) :
  Zpos (Pos.iter xO p n) = Zpos p * 2 ^ Zpos n.
Proof.
  induction n as [| n IH] using Pos.peano_ind.
  - simpl. lia.
  - rewrite Pos.iter_succ, Pos2Z.inj_succ, Z.pow_succ_r by lia.
    rewrite Pos2Z.inj_xO, IH. lia.
Qed.

Lemma shiftp_Z (p : positive) (k : Z) :
  0 <= k -> Zpos (shiftp p k) = Zpos p * 2 ^ k.
Proof.
  intros Hk. destruct k as [| n | n]; simpl shiftp.
  - simpl. lia.
  - apply iter_xO_Z.
  - lia.
Qed.

Lemma digits_iter_xO (p n : positive) :
  Zpos (digits2_pos (Pos.iter xO p n)) = Zpos (digits2_pos p) + Zpos n.
Proof.
  induction n as [| n IH] using Pos.peano_ind.
  - simpl. lia.
  - rewrite Pos.iter_succ. simpl digits2_pos.
    rewrite Pos2Z.inj_succ, IH. lia.
Qed.

Lemma digits_shiftp (p : positive) (k : Z) :
  0 <= k -> Zpos (digits2_pos (shiftp p k)) = Zpos (digits2_pos p) + k.
Proof.
  intros Hk. destruct k as [| n | n]; simpl shiftp.
  - lia.
  - apply digits_iter_xO.
  - lia.
Qed.

Lemma digits_size (p : positive) : digits2_pos p = Pos.size p.
Proof.
  induction p; simpl; congruence.
Qed.

Lemma digits_bound (p : positive) (n : Z) :
  0 <= n -> Zpos p < 2 ^ n -> Zpos (digits2_pos p) <= n.
Proof.
  intros Hn H. rewrite digits_size.
  pose proof (Pos.size_le p) as L.
  assert (L' : 2 ^ Zpos (Pos.size p) <= 2 * Zpos p).
  { change (2 * Zpos p) with (Zpos p~0).
    rewrite <- Pos2Z.inj_pow. exact L. }
  destruct (Z_le_gt_dec (Zpos (Pos.size p)) n) as [Y | N]; [exact Y |].
  exfalso.
  assert (2 ^ (n + 1) <= 2 ^ Zpos (Pos.size p))
    by (apply Z.pow_le_mono_r; lia).
  rewrite Z.pow_add_r in H0 by lia. lia.
Qed.

(** Alignment to a smaller exponent shifts the mantissa; to a larger one
    it does nothing. *)
Lemma shl_align_le (m : positive) (e e' : Z) :
  e' <= e -> shl_align m e e' = (shiftp m (e - e'), e').
Proof.
  intros H. unfold shl_align, shiftp.
  destruct (e' - e) as [| d | d] eqn:D.
  - assert (e = e') by lia. subst. rewrite Z.sub_diag. reflexivity.
  - lia.
  - replace (e - e') with (Zpos d) by lia. reflexivity.
Qed.

Lemma shl_align_ge (m : positive) (e e' : Z) :
  e <= e' -> shl_align m e e' = (m, e).
Proof.
  intros H. unfold shl_align.
  destruct (e' - e) as [| d | d] eqn:D; try reflexivity. lia.
Qed.

Lemma fexp_small (d : Z) : 1 <= d -> fexp prec emax d = d - 53.
Proof.
  intros H. unfold fexp, emin, prec, emax. lia.
Qed.

(** A mantissa already in canonical position is not rounded. *)
Lemma bra_canonical (m : positive) (e : Z) :
  fexp prec emax (Zpos (digits2_pos m) + e) = e ->
  e <= 971 ->
  binary_round_aux prec emax false (Zpos m) e loc_Exact
  = S754_finite false m e.
Proof.
  intros C B. unfold binary_round_aux, shr_fexp.
  cbn [Zdigits2 shr_record_of_loc]. rewrite C, Z.sub_diag.
  cbn [shr shr_m loc_of_shr_record round_nearest_even Zdigits2
       shr_record_of_loc].
  rewrite C, Z.sub_diag. cbn [shr shr_m].
  replace (e <=? emax - prec) with true
    by (symmetry; apply Z.leb_le; unfold emax, prec; lia).
  reflexivity.
Qed.

(** Shifting right over binary places that are all zero loses nothing. *)
Lemma iter_pos_nat {A : Type} (f : A -> A) (n : positive) (x : A) :
  SpecFloat.iter_pos f n x = Nat.iter (Pos.to_nat n) f x.
Proof.
  revert x. induction n as [n IH | n IH |]; intros x; simpl SpecFloat.iter_pos.
  - rewrite !IH, Pos2Nat.inj_xI. 
    replace (S (2 * Pos.to_nat n)) with (Pos.to_nat n + (Pos.to_nat n + 1))%nat by lia.
    rewrite !Nat.iter_add. simpl. reflexivity.
  - rewrite !IH, Pos2Nat.inj_xO.
    replace (2 * Pos.to_nat n)%nat with (Pos.to_nat n + Pos.to_nat n)%nat by lia.
    now rewrite Nat.iter_add.
  - reflexivity.
Qed.

Lemma pos_iter_nat {A : Type} (f : A -> A) (n : positive) (x : A) :
  Pos.iter f x n = Nat.iter (Pos.to_nat n) f x.
Proof.
  induction n as [| n IH] using Pos.peano_ind.
  - reflexivity.
  - rewrite Pos.iter_succ, Pos2Nat.inj_succ, IH. reflexivity.
Qed.

Lemma shr_exact_nat (j : nat) (m0 : positive) :
  Nat.iter j shr_1
    {| shr_m := Zpos (Nat.iter j xO m0); shr_r := false; shr_s := false |}
  = {| shr_m := Zpos m0; shr_r := false; shr_s := false |}.
Proof.
  induction j as [| j IH]; [reflexivity |].
  rewrite Nat.iter_succ_r. cbn [Nat.iter]. exact IH.
Qed.

Lemma shr_exact (n m0 : positive) :
  SpecFloat.iter_pos shr_1 n
    {| shr_m := Zpos (Pos.iter xO m0 n); shr_r := false; shr_s := false |}
  = {| shr_m := Zpos m0; shr_r := false; shr_s := false |}.
Proof.
  rewrite iter_pos_nat, pos_iter_nat. apply shr_exact_nat.
Qed.

Lemma bra_shift (m0 n : positive) (e : Z) :
  fexp prec emax (Zpos (digits2_pos m0) + Zpos n + e) = e + Zpos n ->
  e + Zpos n <= 971 ->
  binary_round_aux prec emax false (Zpos (Pos.iter xO m0 n)) e loc_Exact
  = S754_finite false m0 (e + Zpos n).
Proof.
  intros C B. unfold binary_round_aux, shr_fexp.
  cbn [Zdigits2 shr_record_of_loc]. rewrite digits_iter_xO, C.
  replace (e + Zpos n - e) with (Zpos n) by lia.
  cbn [shr]. rewrite shr_exact.
  cbn [shr_m loc_of_shr_record round_nearest_even Zdigits2
       shr_record_of_loc].
  replace (Zpos (digits2_pos m0) + (e + Zpos n))
    with (Zpos (digits2_pos m0) + Zpos n + e) by lia.
  rewrite C, Z.sub_diag. cbn [shr shr_m].
  replace (e + Zpos n <=? emax - prec) with true
    by (symmetry; apply Z.leb_le; unfold emax, prec; lia).
  reflexivity.
Qed.

Lemma shiftp_shiftp (p : positive) (a b : Z) :
  0 <= a -> 0 <= b -> shiftp (shiftp p a) b = shiftp p (a + b).
Proof.
  intros Ha Hb. apply Pos2Z.inj.
  rewrite !shiftp_Z, Z.pow_add_r by lia. ring.
Qed.

(** The rounding of [s * 2 ^ K] at exponent [- K], for [s] of at most 53
    binary digits, is [s] in canonical position. *)
Lemma binary_round_whole (s : positive) (K : Z) :
  0 <= K -> Zpos (digits2_pos s) <= 53 ->
  binary_round prec emax false (shiftp s K) (- K)
  = S754_finite false (shiftp s (53 - Zpos (digits2_pos s)))
                (Zpos (digits2_pos s) - 53).
Proof.
  intros HK Hd. set (d := Zpos (digits2_pos s)) in *.
  assert (Hd1 : 1 <= d) by (unfold d; lia).
  unfold binary_round.
  rewrite (digits_shiftp s K HK). fold d.
  replace (d + K + - K) with d by lia. rewrite (fexp_small d Hd1).
  destruct (Z_lt_le_dec (d - 53) (- K)) as [Lt | Ge].
  - rewrite shl_align_le by lia.
    rewrite shiftp_shiftp by lia.
    replace (K + (- K - (d - 53))) with (53 - d) by lia.
    apply bra_canonical; [| lia].
    rewrite (digits_shiftp s (53 - d)) by lia. fold d.
    replace (d + (53 - d) + (d - 53)) with d by lia.
    apply fexp_small. exact Hd1.
  - rewrite shl_align_ge by lia.
    destruct (Z.eq_dec (d - 53) (- K)) as [E | N].
    + replace K with (53 - d) by lia.
      replace (- (53 - d)) with (d - 53) by lia.
      apply bra_canonical; [| lia].
      rewrite (digits_shiftp s (53 - d)) by lia. fold d.
      replace (d + (53 - d) + (d - 53)) with d by lia.
      apply fexp_small. exact Hd1.
    + assert (Hn : 0 < K - (53 - d)) by lia.
      destruct (K - (53 - d)) as [| n | n] eqn:En; try lia.
      replace (shiftp s K) with (Pos.iter xO (shiftp s (53 - d)) n).
      2:{ change (Pos.iter xO (shiftp s (53 - d)) n)
            with (shiftp (shiftp s (53 - d)) (Zpos n)).
          rewrite shiftp_shiftp by lia. f_equal. lia. }
      replace (d - 53) with (- K + Zpos n) by lia.
      apply bra_shift; [| lia].
      rewrite (digits_shiftp s (53 - d)) by lia. fold d.
      replace (d + (53 - d) + Zpos n + - K) with d by lia.
      rewrite (fexp_small d Hd1). lia.
Qed.

Lemma whole_pos (s : positive) :
  Zpos s < 2 ^ 53 ->
  whole (Zpos s)
  = S754_finite false (shiftp s (53 - Zpos (digits2_pos s)))
                (Zpos (digits2_pos s) - 53).
Proof.
  intros H. unfold whole, binary_normalize.
  apply (binary_round_whole s 0); [lia |].
  apply digits_bound; [lia | exact H].
Qed.

(** Adding two whole amounts whose sum is below [2 ^ 53] is exact. *)
Lemma whole_add (a b : Z) :
  0 <= a -> 0 <= b -> a + b < 2 ^ 53 ->
  SFadd prec emax (whole a) (whole b) = whole (a + b).
Proof.
  intros Ha Hb Hs.
  destruct a as [| a | a]; [| | lia]; destruct b as [| b | b]; try lia.
  - reflexivity.
  - rewrite Z.add_0_l. rewrite (whole_pos b) by lia. reflexivity.
  - rewrite Z.add_0_r. rewrite (whole_pos a) by lia. reflexivity.
  - rewrite (whole_pos a), (whole_pos b) by lia.
    set (da := Zpos (digits2_pos a)). set (db := Zpos (digits2_pos b)).
    assert (Hda : da <= 53) by (apply digits_bound; lia).
    assert (Hdb : db <= 53) by (apply digits_bound; lia).
    assert (Hda1 : 1 <= da) by (unfold da; lia).
    assert (Hdb1 : 1 <= db) by (unfold db; lia).
    cbn [SFadd cond_Zopp].
    set (ez := Z.min (da - 53) (db - 53)).
    rewrite !shl_align_le by (unfold ez; lia). cbn [fst].
    rewrite !shiftp_shiftp by (unfold ez; lia).
    replace (53 - da + (da - 53 - ez)) with (- ez) by lia.
    replace (53 - db + (db - 53 - ez)) with (- ez) by lia.
    assert (Hez : 0 <= - ez) by (unfold ez; lia).
    assert (E : Zpos (shiftp a (- ez)) + Zpos (shiftp b (- ez))
                = Zpos (shiftp (a + b) (- ez))).
    { rewrite !shiftp_Z by lia. rewrite Pos2Z.inj_add. ring. }
    rewrite E. cbn [binary_normalize].
    replace ez with (- (- ez)) at 2 by lia.
    rewrite binary_round_whole; [| exact Hez |].
    + change (Zpos a + Zpos b) with (Zpos (a + b)).
      rewrite (whole_pos (a + b)) by (rewrite Pos2Z.inj_add; lia).
      reflexivity.
    + apply digits_bound; [lia |]. rewrite Pos2Z.inj_add. lia.
Qed.

Lemma is_whole_add (x y : float) (a b : Z) :
  is_whole x a -> is_whole y b -> 0 <= a -> 0 <= b -> a + b < 2 ^ 53 ->
  is_whole (x + y)%float (a + b).
Proof.
  unfold is_whole. intros Hx Hy Ha Hb Hs.
  rewrite add_spec, Hx, Hy. unfold SF64add. now apply whole_add.
Qed.

Lemma is_whole_eq (x y : float) (z : Z) :
  is_whole x z -> is_whole y z -> x = y.
Proof.
  unfold is_whole. intros Hx Hy.
  rewrite <- (SF2Prim_Prim2SF x), <- (SF2Prim_Prim2SF y). congruence.
Qed.

Lemma is_whole_zero : is_whole 0%float 0.
Proof. reflexivity. Qed.

(** With whole fees every contribution is a whole amount within the
    bound. *)
Lemma contribution_whole (db : list Appointment) (apt : Appointment)
      (bound : Z) :
  0 <= bound -> whole_fees bound apt ->
  exists v z, contribution db apt = Return v
              /\ is_whole v z /\ 0 <= z <= bound.
Proof.
  intros Hb F.
  assert (Hft : forall xs, incl xs (return_fees apt) ->
                           exists z, is_whole (first_truthy xs) z
                                     /\ 0 <= z <= bound).
  { intros xs I. destruct (first_truthy_cases xs) as [E | [Hin _]].
    - rewrite E. exists 0. split; [reflexivity | lia].
    - apply I in Hin. unfold whole_fees in F. rewrite Forall_forall in F.
      destruct (F _ Hin) as (z & Hz & W). exists z. auto. }
  destruct (truthy_bool (is_return_visit apt)) eqn:R.
  - destruct (free_return_dec db apt) as [Fr | NF].
    + exists 0%float, 0. rewrite (contribution_free _ _ R Fr).
      split; [reflexivity |]. split; [reflexivity | lia].
    + destruct (Hft (return_fees apt) (incl_refl _)) as (z & W & Hz).
      exists (paid_return apt), z. rewrite (contribution_paid _ _ R NF).
      rewrite paid_return_first_truthy. auto.
  - destruct (Hft (regular_fees apt)) as (z & W & Hz).
    { intros x [<- | [<- | []]]; simpl; auto. }
    exists (paid_regular apt), z. rewrite (contribution_regular _ _ R).
    rewrite paid_regular_first_truthy. auto.
Qed.

(** The running total of whole amounts stays a whole amount. *)
Lemma totalRevenue_whole_from (db l : list Appointment) (bound : Z) :
  0 <= bound -> Forall (whole_fees bound) l ->
  forall (t : float) (z0 : Z),
    is_whole t z0 -> 0 <= z0 ->
    z0 + bound * Z.of_nat (List.length l) < 2 ^ 53 ->
    exists t' z',
      fold_left
        (fun acc apt =>
           total <- acc ;; c <- contribution db apt ;;
           Return (total + c)%float)
        l (Return t) = Return t'
      /\ is_whole t' z'
      /\ 0 <= z' <= z0 + bound * Z.of_nat (List.length l).
Proof.
  intros Hb HF. induction HF as [| apt l Ha HF IH]; intros t z0 Wt Hz Hs.
  - exists t, z0. cbn [fold_left List.length]. split; [reflexivity |].
    split; [exact Wt | simpl; lia].
  - cbn [fold_left List.length] in *. rewrite Nat2Z.inj_succ in *.
    destruct (contribution_whole db apt bound Hb Ha)
      as (c & zc & -> & Wc & Hzc).
    cbn [bind].
    destruct (IH (t + c)%float (z0 + zc)) as (t' & z' & E & W' & Hz').
    + apply is_whole_add; try assumption; nia.
    + lia.
    + nia.
    + exists t', z'. split; [exact E |]. split; [exact W' | nia].
Qed.

(** Reordering whole amounts does not change their running total. *)
Lemma totalRevenue_perm_from (db l l' : list Appointment) (bound : Z) :
  0 <= bound -> Permutation l l' ->
  Forall (whole_fees bound) l ->
  forall (t : float) (z0 : Z),
    is_whole t z0 -> 0 <= z0 ->
    z0 + bound * Z.of_nat (List.length l) < 2 ^ 53 ->
    fold_left
      (fun acc apt =>
         total <- acc ;; c <- contribution db apt ;;
         Return (total + c)%float)
      l (Return t)
    = fold_left
        (fun acc apt =>
           total <- acc ;; c <- contribution db apt ;;
           Return (total + c)%float)
        l' (Return t).
Proof.
  intros Hb P.
  induction P as [| x l l' P IH | x y l | l l' l'' P1 IH1 P2 IH2];
    intros HF t z0 Wt Hz Hs.
  - reflexivity.
  - inversion HF as [| ? ? Hx HF']; subst.
    cbn [fold_left List.length] in *. rewrite Nat2Z.inj_succ in Hs.
    destruct (contribution_whole db x bound Hb Hx)
      as (c & zc & -> & Wc & Hzc).
    cbn [bind]. apply (IH HF' _ (z0 + zc)).
    + apply is_whole_add; try assumption; nia.
    + lia.
    + nia.
  - inversion HF as [| ? ? Hy HF']; subst.
    inversion HF' as [| ? ? Hx HF'']; subst.
    cbn [fold_left List.length] in *. rewrite !Nat2Z.inj_succ in Hs.
    destruct (contribution_whole db x bound Hb Hx)
      as (cx & zx & -> & Wx & Hzx).
    destruct (contribution_whole db y bound Hb Hy)
      as (cy & zy & -> & Wy & Hzy).
    cbn [bind]. do 2 f_equal.
    apply (is_whole_eq _ _ (z0 + zx + zy)).
    + replace (z0 + zx + zy) with (z0 + zy + zx) by lia.
      apply is_whole_add; try assumption; try nia.
      apply is_whole_add; try assumption; nia.
    + apply is_whole_add; try assumption; try nia.
      apply is_whole_add; try assumption; nia.
  - rewrite (IH1 HF t z0 Wt Hz Hs).
    apply (IH2 (Permutation_Forall P1 HF) t z0 Wt Hz).
    now rewrite <- (Permutation_length P1).
Qed.

(** C6, as stated, fails: the accumulator is a double, and double addition
    is not associative.  Three regular visits costing 10.10, 20.20 and 30.30
    total 60.599999999999994 in that order and 60.6 in the reverse order. *)
Lemma total_depends_on_order :
  Permutation [visit_10_10; visit_20_20; visit_30_30]
              [visit_30_30; visit_20_20; visit_10_10]
  /\ totalRevenue cents_db [visit_30_30; visit_20_20; visit_10_10]
     = Return 60.6%float
  /\ totalRevenue cents_db [visit_10_10; visit_20_20; visit_30_30]
     <> Return 60.6%float
  /\ totalRevenue cents_db [visit_10_10; visit_20_20; visit_30_30]
     <> totalRevenue cents_db [visit_30_30; visit_20_20; visit_10_10].
Proof.
  split; [| split; [| split]].
  - apply (Permutation_rev [visit_10_10; visit_20_20; visit_30_30]).
  - reflexivity.
  - returns_differ_at 60.6%float.
  - returns_differ_at 60.6%float.
Qed.

(** C6 (amended): for every finite list of completed appointments whose
    costs and fees, where set, are whole amounts between 0 and a bound
    whose product with the number of appointments is below [2 ^ 53], the
    total daily revenue is the same for every order of the list, and it is
    a whole amount, no rounding having taken place. *)
Theorem total_order_independent_for_whole_amounts
        (db l l' : list Appointment) (bound : Z) :
  Permutation l l' ->
  0 <= bound ->
  Forall (whole_fees bound) l ->
  bound * Z.of_nat (List.length l) < 2 ^ 53 ->
  totalRevenue db l = totalRevenue db l'
  /\ exists t z, totalRevenue db l = Return t
                 /\ is_whole t z
                 /\ 0 <= z <= bound * Z.of_nat (List.length l).
Proof.
  intros P Hb HF Hs. unfold totalRevenue. split.
  - apply (totalRevenue_perm_from db l l' bound Hb P HF _ 0);
      [apply is_whole_zero | lia | lia].
  - destruct (totalRevenue_whole_from db l bound Hb HF _ 0 is_whole_zero)
      as (t & z & E & W & Hz); [lia | lia |].
    exists t, z. split; [exact E |]. split; [exact W | lia].
Qed.

Lemma total_order_independent_for_whole_amounts_witness :
  Permutation [new_visit_100; return_day7; return_outside_40]
              [return_outside_40; return_day7; new_visit_100]
  /\ 0 <= 100
  /\ Forall (whole_fees 100) [new_visit_100; return_day7; return_outside_40]
  /\ 100 * Z.of_nat
             (List.length [new_visit_100; return_day7; return_outside_40])
     < 2 ^ 53
  /\ totalRevenue example_db [new_visit_100; return_day7; return_outside_40]
     = totalRevenue example_db
                    [return_outside_40; return_day7; new_visit_100].
Proof.
  assert (P : Permutation [new_visit_100; return_day7; return_outside_40]
                          [return_outside_40; return_day7; new_visit_100])
    by apply (Permutation_rev
                [new_visit_100; return_day7; return_outside_40]).
  assert (F100 : whole_fee 100 (Some 100%float))
    by (exists 100; split; [lia | reflexivity]).
  assert (F50 : whole_fee 100 (Some 50%float))
    by (exists 50; split; [lia | reflexivity]).
  assert (F40 : whole_fee 100 (Some 40%float))
    by (exists 40; split; [lia | reflexivity]).
  assert (F30 : whole_fee 100 (Some 30%float))
    by (exists 30; split; [lia | reflexivity]).
  assert (HF : Forall (whole_fees 100)
                      [new_visit_100; return_day7; return_outside_40]).
  { unfold whole_fees.
    repeat first [apply Forall_nil | apply Forall_cons];
      first [exact F100 | exact F50 | exact F40 | exact F30 | exact I]. }
  assert (Hs : 100 * Z.of_nat
                       (List.length
                          [new_visit_100; return_day7; return_outside_40])
               < 2 ^ 53) by (simpl; lia).
  split; [exact P |]. split; [lia |]. split; [exact HF |].
  split; [exact Hs |].
  apply (proj1 (total_order_independent_for_whole_amounts
                  example_db
                  [new_visit_100; return_day7; return_outside_40]
                  [return_outside_40; return_day7; new_visit_100]
                  100 P ltac:(lia) HF Hs)).
Defined.

End ExactTotals.

(* ================================================================== *)
(** ** More about the doctor forms *)

Section DoctorFormMore.
Import JS DoctorForms DoctorEdit MoreSamples.

Lemma flag_nil_iff (cond : bool) (field message : string)
      (errors : FormErrors) :
  flag cond field message errors = [] <-> cond = false /\ errors = [].
Proof.
  split; [apply flag_nil |]. intros [-> ->]. reflexivity.
Qed.

Lemma empty_string_false (s : string) :
  empty_string s = false <-> s <> EmptyString.
Proof.
  unfold empty_string. apply String.eqb_neq.
Qed.

(** X12: the add form is accepted exactly when a user is chosen, the name
    and the specialization are not empty, and neither the consultation fee
    nor the number of free-return days is below zero; the edit form the
    same without the user.  Nothing else is looked at, neither the return
    fee nor the years of experience. *)
Theorem validators_accept_iff :
  (forall values : AddValues,
      validateAdd values = []
      <-> add_user_id values <> EmptyString
          /\ add_doctor_name values <> EmptyString
          /\ add_specialization values <> EmptyString
          /\ PrimFloat.ltb (add_consultation_fee values) 0%float = false
          /\ PrimFloat.ltb (add_free_return_days values) 0%float = false)
  /\ (forall values : EditValues,
         validateEdit values = []
         <-> edit_doctor_name values <> EmptyString
             /\ edit_specialization values <> EmptyString
             /\ PrimFloat.ltb (edit_consultation_fee values) 0%float = false
             /\ PrimFloat.ltb (edit_free_return_days values) 0%float
                = false).
Proof.
  split; intros values.
  - unfold validateAdd. rewrite !flag_nil_iff, !empty_string_false. tauto.
  - unfold validateEdit. rewrite !flag_nil_iff, !empty_string_false. tauto.
Qed.

Lemma or_num_default (x : option float) (d : float) :
  truthy x = false -> or_num x d = d.
Proof.
  destruct x as [v |]; simpl; [| reflexivity]. now intros ->.
Qed.

Lemma or_num_keep (v d : float) :
  truthy_number v = true -> or_num (Some v) d = v.
Proof.
  simpl. now intros ->.
Qed.

(** X13: when the edit form is opened on a stored doctor and its initial
    values pass [validateEdit], saving it untouched sends the doctor's own
    identifier, name and specialization, and the fees and number of
    free-return days when these are set and non-zero; an unset or zero
    number of free-return days is sent as 7, unset or zero fees as 0, and
    an unset or empty licence number or biography as [null]. *)
Theorem untouched_edit_form_update (row : DoctorRow) :
  validateEdit (initialEditValues (Some row)) = [] ->
  let sent := editUpdate (initialEditValues (Some row)) in
  fst sent = d_id row
  /\ d_doctor_name row = Some (u_doctor_name (snd sent))
  /\ u_doctor_name (snd sent) <> EmptyString
  /\ u_specialization (snd sent) = d_specialization row
  /\ (truthy (d_free_return_days row) = false ->
      u_free_return_days (snd sent) = 7%float)
  /\ (forall v, d_free_return_days row = Some v ->
                truthy_number v = true ->
                u_free_return_days (snd sent) = v)
  /\ (truthy (d_consultation_fee row) = false ->
      u_consultation_fee (snd sent) = 0%float)
  /\ (forall v, d_consultation_fee row = Some v ->
                truthy_number v = true ->
                u_consultation_fee (snd sent) = v)
  /\ (truthy (d_return_consultation_fee row) = false ->
      u_return_consultation_fee (snd sent) = 0%float)
  /\ (forall v, d_return_consultation_fee row = Some v ->
                truthy_number v = true ->
                u_return_consultation_fee (snd sent) = v)
  /\ u_license_number (snd sent)
     = match d_license_number row with Some s => or_null s | None => None end
  /\ u_bio (snd sent)
     = match d_bio row with Some s => or_null s | None => None end.
Proof.
  assert (S : forall x, or_str x EmptyString
                        = match x with Some s => s | None => EmptyString end).
  { intros [s |]; simpl; [| reflexivity].
    destruct (String.eqb s EmptyString) eqn:E; [| reflexivity].
    apply String.eqb_eq in E. now subst. }
  assert (N : forall x, or_null (or_str x EmptyString)
                        = match x with Some s => or_null s | None => None end).
  { intros x. rewrite S. now destruct x. }
  intros V.
  assert (Hname : edit_doctor_name (initialEditValues (Some row))
                  <> EmptyString).
  { unfold validateEdit in V. rewrite !flag_nil_iff in V.
    apply empty_string_false. tauto. }
  revert Hname.
  cbn zeta. unfold editUpdate, initialEditValues. cbn [fst snd option_map
    opt_chain edit_id edit_doctor_name edit_specialization edit_license_number
    edit_consultation_fee edit_return_consultation_fee edit_free_return_days
    edit_bio u_doctor_name u_specialization u_license_number
    u_consultation_fee u_return_consultation_fee u_free_return_days u_bio].
  rewrite !N, !S. intros Hname.
  split; [reflexivity |].
  split; [destruct (d_doctor_name row); [reflexivity | now elim Hname] |].
  split; [exact Hname |].
  repeat split; try reflexivity;
    try (intros T; now apply or_num_default);
    try (intros v -> T; now apply or_num_keep).
Qed.

Lemma untouched_edit_form_update_witness :
  validateEdit (initialEditValues (Some doctor_row_zero_window)) = []
  /\ truthy (d_free_return_days doctor_row_zero_window) = false
  /\ d_doctor_name doctor_row_zero_window = Some "Dr. A"%string
  /\ u_free_return_days
       (snd (editUpdate (initialEditValues (Some doctor_row_zero_window))))
     = 7%float.
Proof.
  split; [reflexivity |]. split; [reflexivity |]. split; [reflexivity |].
  apply (proj1 (proj2 (proj2 (proj2 (proj2 (untouched_edit_form_update
                                doctor_row_zero_window eq_refl)))))).
  reflexivity.
Defined.

End DoctorFormMore.

(* ================================================================== *)
(** ** Users page: reading and writing permissions *)

Section UsersFacts.
Import JS Users Tables MoreSamples.

Lemma role_eqb_eq (a b : UserRole) : role_eqb a b = true <-> a = b.
Proof.
  destruct a, b; simpl; split; intros H; try reflexivity; discriminate.
Qed.

Lemma is_permission_key (role : UserRole) (name : string)
      (p : RolePermission) :
  is_permission role name p = true <-> permission_key p = (role, name).
Proof.
  unfold is_permission, permission_key.
  rewrite andb_true_iff, role_eqb_eq, String.eqb_eq.
  split; [intros [-> ->]; reflexivity | intros H; now injection H].
Qed.

(** With unique pairs, [find] returns the one row of the pair. *)
Lemma find_unique (table : list RolePermission) (role : UserRole)
      (name : string) (p : RolePermission) :
  unique_permissions table ->
  In p table -> permission_key p = (role, name) ->
  find (is_permission role name) table = Some p.
Proof.
  unfold unique_permissions.
  induction table as [| x table IH]; intros U Hin K; [contradiction |].
  simpl in U. apply NoDup_cons_iff in U. destruct U as [Hx U].
  cbn [find]. destruct (is_permission role name x) eqn:M.
  - apply is_permission_key in M. destruct Hin as [-> | Hin]; [reflexivity |].
    exfalso. apply Hx. rewrite M, <- K. now apply in_map.
  - destruct Hin as [-> | Hin].
    + apply is_permission_key in K. congruence.
    + now apply IH.
Qed.

Lemma find_permission_In (table : list RolePermission) (role : UserRole)
      (name : string) (p : RolePermission) :
  find (is_permission role name) table = Some p ->
  In p table /\ permission_key p = (role, name).
Proof.
  intros H. apply find_some in H. destruct H as [Hin M].
  split; [exact Hin | now apply is_permission_key].
Qed.

(** Two tables with unique pairs and the same rows for a pair are read
    alike for that pair. *)
Lemma find_same_rows (t1 t2 : list RolePermission) (role : UserRole)
      (name : string) :
  unique_permissions t1 -> unique_permissions t2 ->
  (forall p, permission_key p = (role, name) -> (In p t1 <-> In p t2)) ->
  find (is_permission role name) t1 = find (is_permission role name) t2.
Proof.
  intros U1 U2 Same.
  destruct (find (is_permission role name) t1) as [p |] eqn:F1.
  - apply find_permission_In in F1. destruct F1 as [Hin K].
    symmetry. apply find_unique; [assumption | now apply Same | assumption].
  - destruct (find (is_permission role name) t2) as [q |] eqn:F2;
      [| reflexivity].
    apply find_permission_In in F2. destruct F2 as [Hin K].
    rewrite (find_unique t1 role name q U1) in F1;
      [discriminate | now apply Same | assumption].
Qed.

Lemma unique_permissions_perm (t1 t2 : list RolePermission) :
  Permutation t1 t2 -> unique_permissions t1 -> unique_permissions t2.
Proof.
  unfold unique_permissions. intros P.
  apply Permutation_NoDup. now apply Permutation_map.
Qed.

(** X14: with at most one row per role and permission, as the table
    requires, the value read does not depend on the order of the rows the
    page holds; a stored row decides, whatever the role's default, and
    without a row an admin is allowed everything and a patient nothing. *)
Theorem getPermissionValue_row_order
        (rolePermissions fetched : list RolePermission)
        (role : UserRole) (permissionName : string) :
  unique_permissions rolePermissions ->
  Permutation rolePermissions fetched ->
  getPermissionValue fetched role permissionName
  = getPermissionValue rolePermissions role permissionName
  /\ (forall p, In p rolePermissions ->
                permission_key p = (role, permissionName) ->
                getPermissionValue fetched role permissionName
                = rp_is_allowed p)
  /\ ((forall p, In p rolePermissions ->
                 permission_key p <> (role, permissionName)) ->
      (role = admin ->
       getPermissionValue fetched role permissionName = Some true)
      /\ (role = patient ->
          getPermissionValue fetched role permissionName = Some false)).
Proof.
  intros U P.
  pose proof (unique_permissions_perm _ _ P U) as U'.
  assert (F : find (is_permission role permissionName) fetched
              = find (is_permission role permissionName) rolePermissions).
  { apply find_same_rows; try assumption. intros p _.
    split; apply Permutation_in; [now apply Permutation_sym | assumption]. }
  unfold getPermissionValue. rewrite F. split; [reflexivity | split].
  - intros p Hin K. now rewrite (find_unique _ _ _ p U Hin K).
  - intros Hno.
    destruct (find (is_permission role permissionName) rolePermissions)
      as [q |] eqn:Q.
    + apply find_permission_In in Q. destruct Q as [Hin K].
      now apply Hno in Hin.
    + split; intros ->; reflexivity.
Qed.

Lemma getPermissionValue_row_order_witness :
  unique_permissions permission_table
  /\ Permutation permission_table (rev permission_table)
  /\ getPermissionValue (rev permission_table) admin "delete_data"
     = Some false.
Proof.
  assert (U : unique_permissions permission_table).
  { unfold unique_permissions. simpl.
    repeat constructor; simpl; intuition discriminate. }
  split; [exact U |]. split; [apply Permutation_rev |].
  apply (proj1 (proj2 (getPermissionValue_row_order
                         permission_table (rev permission_table)
                         admin "delete_data" U
                         (Permutation_rev permission_table)))
               admin_delete_denied).
  - simpl. auto.
  - reflexivity.
Defined.

Lemma update_is_allowed_keys (id : string) (v : bool)
      (table : list RolePermission) :
  map permission_key (update_is_allowed id v table)
  = map permission_key table.
Proof.
  unfold update_is_allowed. rewrite map_map. apply map_ext.
  intros p. now destruct (String.eqb (rp_id p) id).
Qed.

Lemma unique_ids_inj (table : list RolePermission) (p q : RolePermission) :
  unique_ids table -> In p table -> In q table -> rp_id p = rp_id q ->
  p = q.
Proof.
  unfold unique_ids. induction table as [| x table IH]; [contradiction |].
  simpl. intros U Hp Hq E. apply NoDup_cons_iff in U. destruct U as [Hx U].
  destruct Hp as [-> | Hp], Hq as [-> | Hq]; try reflexivity.
  - exfalso. apply Hx. rewrite E. now apply in_map.
  - exfalso. apply Hx. rewrite <- E. now apply in_map.
  - now apply IH.
Qed.

(** The table after the write of [updatePermission], when the page holds
    the current rows. *)
Lemma updatePermission_table
      (rolePermissions table : list RolePermission) (new_id : string)
      (role : UserRole) (name : string) (isAllowed : bool) :
  Permutation rolePermissions table ->
  unique_permissions table -> unique_ids table ->
  ~ In new_id (map rp_id table) ->
  let table' := updatePermission rolePermissions new_id role name isAllowed
                                 table in
  unique_permissions table'
  /\ (exists p, In p table' /\ permission_key p = (role, name)
                /\ rp_is_allowed p = Some isAllowed)
  /\ (forall p, permission_key p <> (role, name) ->
                (In p table' <-> In p table)).
Proof.
  intros P U I Fresh. cbn zeta. unfold updatePermission.
  pose proof (unique_permissions_perm _ _ (Permutation_sym P) U) as Urp.
  destruct (find (is_permission role name) rolePermissions) as [e |] eqn:F.
  - apply find_permission_In in F. destruct F as [He K].
    apply (Permutation_in _ P) in He.
    split; [| split].
    + unfold unique_permissions. now rewrite update_is_allowed_keys.
    + exists (mkRolePermission (rp_id e) (rp_role e) (rp_permission_name e)
                               (Some isAllowed)).
      split; [| split; [exact K | reflexivity]].
      unfold update_is_allowed. apply in_map_iff. exists e.
      now rewrite String.eqb_refl.
    + intros p Kp. unfold update_is_allowed. rewrite in_map_iff. split.
      * intros (q & Eq & Hq).
        destruct (String.eqb (rp_id q) (rp_id e)) eqn:Id.
        -- apply String.eqb_eq in Id.
           pose proof (unique_ids_inj _ _ _ I Hq He Id) as ->.
           subst p. now contradiction Kp.
        -- now subst p.
      * intros Hp. exists p. split; [| exact Hp].
        destruct (String.eqb (rp_id p) (rp_id e)) eqn:Id; [| reflexivity].
        apply String.eqb_eq in Id.
        pose proof (unique_ids_inj _ _ _ I Hp He Id) as ->.
        now contradiction Kp.
  - assert (Hno : forall p, In p table -> permission_key p <> (role, name)).
    { intros p Hp K. apply (Permutation_in _ (Permutation_sym P)) in Hp.
      rewrite (find_unique _ _ _ p Urp Hp K) in F. discriminate. }
    unfold insert_permission.
    assert (E1 : existsb (is_permission role name) table = false).
    { destruct (existsb (is_permission role name) table) eqn:E;
        [| reflexivity].
      apply existsb_exists in E. destruct E as (p & Hp & M).
      apply is_permission_key in M. now apply Hno in Hp. }
    assert (E2 : existsb (fun p => String.eqb (rp_id p) new_id) table
                 = false).
    { destruct (existsb (fun p => String.eqb (rp_id p) new_id) table)
        eqn:E; [| reflexivity].
      apply existsb_exists in E. destruct E as (p & Hp & M).
      apply String.eqb_eq in M. exfalso. apply Fresh. rewrite <- M.
      now apply in_map. }
    rewrite E1, E2. cbn [orb]. split; [| split].
    + unfold unique_permissions. rewrite map_app. simpl.
      apply NoDup_app; [exact U | repeat constructor; intros [] |].
      intros k Hk1 Hk2. destruct Hk2 as [<- | []].
      apply in_map_iff in Hk1. destruct Hk1 as (p & Kp & Hp).
      now apply Hno in Hp.
    + exists (mkRolePermission new_id role name (Some isAllowed)).
      split; [apply in_or_app; right; now left | split; reflexivity].
    + intros p Kp. rewrite in_app_iff. simpl. split.
      * intros [Hp | [<- | []]]; [exact Hp | now contradiction Kp].
      * now left.
Qed.

(** X15: a permission that was just written is read back: once the page
    has reloaded the table, in whatever order, [getPermissionValue] gives
    the value that was written for that role and permission, and every
    other role and permission reads as before. *)
Theorem updatePermission_read_back
        (rolePermissions table fetched : list RolePermission)
        (new_id : string) (role : UserRole) (permissionName : string)
        (isAllowed : bool) :
  Permutation rolePermissions table ->
  unique_permissions table -> unique_ids table ->
  ~ In new_id (map rp_id table) ->
  Permutation fetched
              (updatePermission rolePermissions new_id role permissionName
                                isAllowed table) ->
  getPermissionValue fetched role permissionName = Some isAllowed
  /\ (forall role' name',
         (role', name') <> (role, permissionName) ->
         getPermissionValue fetched role' name'
         = getPermissionValue rolePermissions role' name').
Proof.
  intros P U I Fresh Pf.
  destruct (updatePermission_table rolePermissions table new_id role
              permissionName isAllowed P U I Fresh) as (U' & (p & Hp & K & A)
                                                        & Frame).
  set (table' := updatePermission rolePermissions new_id role permissionName
                                  isAllowed table) in *.
  pose proof (unique_permissions_perm _ _ (Permutation_sym Pf) U') as Uf.
  pose proof (unique_permissions_perm _ _ (Permutation_sym P) U) as Urp.
  split.
  - unfold getPermissionValue.
    rewrite (find_unique fetched role permissionName p Uf);
      [exact A | | exact K].
    now apply (Permutation_in _ (Permutation_sym Pf)).
  - intros role' name' Ne. unfold getPermissionValue.
    rewrite (find_same_rows fetched rolePermissions role' name' Uf Urp);
      [reflexivity |].
    intros q Kq. assert (Kne : permission_key q <> (role, permissionName))
      by congruence.
    transitivity (In q table').
    + split; apply Permutation_in;
        [assumption | now apply Permutation_sym].
    + rewrite (Frame q Kne). split; apply Permutation_in;
        [now apply Permutation_sym | assumption].
Qed.

End UsersFacts.

Section UsersMore.
Import JS Users Tables MoreSamples.

Lemma updatePermission_read_back_witness :
  Permutation permission_table permission_table
  /\ unique_permissions permission_table
  /\ unique_ids permission_table
  /\ ~ In "r3"%string (map rp_id permission_table)
  /\ getPermissionValue
       (rev (updatePermission permission_table "r3" doctor "manage_users"
                              true permission_table))
       doctor "manage_users" = Some true.
Proof.
  assert (U : unique_permissions permission_table).
  { unfold unique_permissions. simpl.
    repeat constructor; simpl; intuition discriminate. }
  assert (I : unique_ids permission_table).
  { unfold unique_ids. simpl.
    repeat constructor; simpl; intuition discriminate. }
  assert (F : ~ In "r3"%string (map rp_id permission_table)).
  { simpl. intuition discriminate. }
  split; [apply Permutation_refl |]. split; [exact U |].
  split; [exact I |]. split; [exact F |].
  apply (proj1 (updatePermission_read_back
                  permission_table permission_table
                  (rev (updatePermission permission_table "r3" doctor
                                         "manage_users" true
                                         permission_table))
                  "r3" doctor "manage_users" true
                  (Permutation_refl _) U I F
                  (Permutation_sym (Permutation_rev _)))).
Defined.


End UsersMore.

(* ================================================================== *)
(** ** useSearch *)

Section UseSearchFacts.
Import JS JSString UseSearch MoreSamples.

Lemma prefix_app (t s : string) :
  String.prefix t s = true <-> exists b, s = (t ++ b)%string.
Proof.
  revert s. induction t as [| c t IH]; intros s.
  - split; [intros _; now exists s | intros _; now destruct s].
  - destruct s as [| d s]; simpl.
    + split; [discriminate | intros [b H]; discriminate].
    + destruct (Ascii.ascii_dec c d) as [-> | Ne].
      * rewrite IH. split; intros [b H]; exists b; congruence.
      * split; [discriminate | intros [b H]; congruence].
Qed.

Lemma includes_app (s t : string) :
  includes s t = true <-> exists a b, s = (a ++ t ++ b)%string.
Proof.
  induction s as [| c s IH].
  - cbn [includes]. destruct (String.prefix t EmptyString) eqn:P.
    + split; [intros _ | reflexivity].
      apply prefix_app in P. destruct P as [b ->]. now exists EmptyString, b.
    + split; [discriminate |]. intros (a & b & E).
      destruct a; [| discriminate]. simpl in E.
      assert (P' : String.prefix t EmptyString = true)
        by (apply prefix_app; now exists b).
      congruence.
  - cbn [includes]. destruct (String.prefix t (String c s)) eqn:P.
    + split; [intros _ | reflexivity].
      apply prefix_app in P. destruct P as [b ->]. now exists EmptyString, b.
    + rewrite IH. split.
      * intros (a & b & ->). now exists (String c a), b.
      * intros (a & b & E). destruct a as [| x a].
        -- simpl in E.
           assert (P' : String.prefix t (String c s) = true)
             by (apply prefix_app; now exists b).
           congruence.
        -- simpl in E. injection E as -> ->. now exists a, b.
Qed.

Lemma append_assoc (a b c : string) :
  ((a ++ b) ++ c = a ++ (b ++ c))%string.
Proof.
  induction a as [| x a IH]; [reflexivity |]. simpl. now rewrite IH.
Qed.

(** A text that contains a text contains what that text contains. *)
Lemma includes_trans (s t u : string) :
  includes s t = true -> includes t u = true -> includes s u = true.
Proof.
  rewrite !includes_app. intros (a & b & ->) (c & d & ->).
  exists (a ++ c)%string, (d ++ b)%string.
  now rewrite !append_assoc.
Qed.

Context {R : Runtime}.

Lemma walk_safe (keys : list string) (v : value) :
  reads_return -> strings_not_nullish ->
  exists x, walk keys v = Return x /\ is_nullish x = false.
Proof.
  intros Hget Hstr. revert v.
  induction keys as [| key keys IH]; intros v; cbn [walk].
  - destruct (is_nullish v) eqn:N; eauto.
  - destruct (is_nullish v) eqn:N; [eauto |].
    destruct (Hget v key N) as [x ->]. simpl. apply IH.
Qed.

(** X17: [getNestedValue] never reads a property of [null] or
    [undefined]: provided that reading a property of any other value
    returns, it returns for every object and path, and what it returns is
    never [null] or [undefined]. *)
Theorem getNestedValue_safe (obj : value) (path : string) :
  reads_return -> strings_not_nullish ->
  exists x, getNestedValue obj path = Return x /\ is_nullish x = false.
Proof.
  intros Hget Hstr. unfold getNestedValue. now apply walk_safe.
Qed.

Lemma field_matches_returns (options : SearchOptions) (term : string)
      (item : value) (field : string) :
  reads_return -> strings_not_nullish -> text_returns ->
  exists b, field_matches options term item field = Return b.
Proof.
  intros Hget Hstr Htext. unfold field_matches, getNestedValue.
  destruct (walk_safe (split dot field) item Hget Hstr) as (x & -> & _).
  simpl. destruct (Htext x) as [s ->]. simpl. eauto.
Qed.

Lemma some_returns {A : Type} (f : A -> completion bool) (xs : list A) :
  (forall x, exists b, f x = Return b) ->
  exists b, some f xs = Return b.
Proof.
  intros Hf. induction xs as [| x xs IH]; cbn [some]; [eauto |].
  destruct (Hf x) as [b ->]. simpl. destruct b; eauto.
Qed.

Lemma filter_items_filter {A : Type} (f : A -> completion bool)
      (keep : A -> bool) (xs : list A) :
  (forall x, f x = Return (keep x)) ->
  filter_items f xs = Return (filter keep xs).
Proof.
  intros Hf. induction xs as [| x xs IH]; [reflexivity |].
  cbn [filter_items filter]. rewrite Hf, IH. simpl.
  now destruct (keep x).
Qed.

(** X18: for an empty term, or one shorter than [minChars], the data is
    returned as it is, without any item being read.  Otherwise, provided
    that property reads and text conversions return, the hook returns the
    items for which [some] field matches, in their order: each item is
    kept or dropped on its own, whatever the other items are, and with no
    field to search no item is kept. *)
Theorem filteredData_is_a_filter
        (data : list value) (options : SearchOptions) (searchTerm : string) :
  (searchTerm = EmptyString
   \/ (Z.of_nat (js_length searchTerm) < min_chars options)%Z ->
   filteredData data options searchTerm = Return data)
  /\ (reads_return -> strings_not_nullish -> text_returns ->
      searchTerm <> EmptyString ->
      (min_chars options <= Z.of_nat (js_length searchTerm))%Z ->
      exists keep : value -> bool,
        (forall item,
            some (field_matches options (normalise options searchTerm) item)
                 (fields options) = Return (keep item))
        /\ filteredData data options searchTerm = Return (filter keep data)
        /\ (fields options = [] ->
            filteredData data options searchTerm = Return [])).
Proof.
  split.
  - intros H. unfold filteredData. destruct H as [-> | H]; [reflexivity |].
    apply Z.ltb_lt in H. rewrite H. now rewrite orb_true_r.
  - intros Hget Hstr Htext Hne Hmin. unfold filteredData.
    apply String.eqb_neq in Hne. rewrite Hne.
    replace (Z.of_nat (js_length searchTerm) <? min_chars options)%Z
      with false by (symmetry; apply Z.ltb_ge; exact Hmin).
    cbn [orb].
    set (f := fun item =>
                some (field_matches options (normalise options searchTerm)
                                    item) (fields options)).
    exists (fun item => match f item with
                        | Return b => b
                        | Throw _ => false
                        end).
    assert (Hf : forall item,
               f item = Return match f item with
                               | Return b => b
                               | Throw _ => false
                               end).
    { intros item. unfold f.
      destruct (some_returns
                  (field_matches options (normalise options searchTerm) item)
                  (fields options)) as [b ->]; [| reflexivity].
      intros field. now apply field_matches_returns. }
    split; [exact Hf | split].
    + now apply filter_items_filter.
    + intros E. rewrite (filter_items_filter _ _ _ Hf).
      f_equal. unfold f. rewrite E. simpl.
      induction data as [| x data IH]; [reflexivity | exact IH].
Qed.

Lemma filter_items_In {A : Type} (f : A -> completion bool)
      (xs kept : list A) :
  filter_items f xs = Return kept ->
  forall x, In x kept <-> In x xs /\ f x = Return true.
Proof.
  revert kept. induction xs as [| y xs IH]; intros kept H x.
  - injection H as <-. simpl. tauto.
  - cbn [filter_items] in H. destruct (f y) as [b | e] eqn:Fy;
      [| discriminate]. simpl in H.
    destruct (filter_items f xs) as [k | e] eqn:Fx; [| discriminate].
    simpl in H. injection H as <-. specialize (IH k eq_refl x).
    destruct b; simpl; rewrite IH; split.
    + intros [<- | [Hin Hx]]; auto.
    + intros [[<- | Hin] Hx]; auto.
    + intros [Hin Hx]. auto.
    + intros [[<- | Hin] Hx]; [congruence | auto].
Qed.

Lemma some_mono {A : Type} (f g : A -> completion bool) (xs : list A) :
  (forall x b, f x = Return b ->
               exists b', g x = Return b' /\ (b = true -> b' = true)) ->
  some f xs = Return true -> some g xs = Return true.
Proof.
  intros H. induction xs as [| x xs IH]; cbn [some]; [discriminate |].
  destruct (f x) as [b | e] eqn:Fx; [| discriminate]. simpl.
  destruct (H x b Fx) as (b' & -> & Hb). simpl.
  destruct b.
  - intros _. now rewrite (Hb eq_refl).
  - intros S. destruct b'; [reflexivity | now apply IH].
Qed.

Lemma filter_items_incl {A : Type} (f : A -> completion bool)
      (xs kept : list A) :
  filter_items f xs = Return kept -> incl kept xs.
Proof.
  intros H x Hx. now apply (filter_items_In f xs kept H x).
Qed.

Lemma filter_items_some_returns {A : Type} (f : A -> completion bool)
      (xs kept : list A) :
  filter_items f xs = Return kept ->
  forall x, In x xs -> exists b, f x = Return b.
Proof.
  revert kept. induction xs as [| y xs IH]; intros kept H x Hx;
    [contradiction |].
  cbn [filter_items] in H. destruct (f y) as [b | e] eqn:Fy;
    [| discriminate]. simpl in H.
  destruct (filter_items f xs) as [k | e] eqn:Fx; [| discriminate].
  destruct Hx as [<- | Hx]; [eauto | exact (IH k eq_refl x Hx)].
Qed.

Lemma includes_length (long short : string) :
  includes long short = true -> js_length short <= js_length long.
Proof.
  intros H. apply includes_app in H. destruct H as (a & b & ->).
  rewrite !js_length_app. lia.
Qed.

Lemma includes_empty (short : string) :
  includes EmptyString short = true -> short = EmptyString.
Proof.
  intros H. apply includes_app in H. destruct H as (a & b & E).
  destruct a; [| discriminate]. simpl in E.
  destruct short; [reflexivity | discriminate].
Qed.

(** X19: in a case-sensitive search, typing more never brings an item
    back: when the shorter term occurs in the longer one, every item
    found for the longer term is also found for the shorter one. *)
Theorem case_sensitive_search_narrows
        (data kept_short kept_long : list value) (options : SearchOptions)
        (short long : string) :
  truthy_bool (caseSensitive options) = true ->
  includes long short = true ->
  filteredData data options short = Return kept_short ->
  filteredData data options long = Return kept_long ->
  incl kept_long kept_short.
Proof.
  intros CS Sub Hs Hl. unfold filteredData in Hs, Hl.
  destruct (String.eqb long EmptyString
            || (Z.of_nat (js_length long) <? min_chars options)%Z) eqn:Gl.
  - injection Hl as <-.
    assert (Gs : String.eqb short EmptyString
                 || (Z.of_nat (js_length short) <? min_chars options)%Z
                 = true).
    { apply orb_true_iff in Gl. destruct Gl as [E | L].
      - apply String.eqb_eq in E. subst long.
        now rewrite (includes_empty _ Sub).
      - apply Z.ltb_lt in L. pose proof (includes_length _ _ Sub) as Le.
        apply orb_true_iff. right. apply Z.ltb_lt. lia. }
    rewrite Gs in Hs. injection Hs as <-. apply incl_refl.
  - destruct (String.eqb short EmptyString
              || (Z.of_nat (js_length short) <? min_chars options)%Z).
    + injection Hs as <-. exact (filter_items_incl _ _ _ Hl).
    + intros x Hx. apply (filter_items_In _ _ _ Hl x) in Hx.
      destruct Hx as [Hin Hx]. apply (filter_items_In _ _ _ Hs x).
      split; [exact Hin |]. revert Hx. apply some_mono.
      intros field b Hb. unfold field_matches, normalise in Hb |- *.
      rewrite CS in Hb |- *.
      destruct (getNestedValue x field) as [v | e]; [| discriminate].
      simpl in Hb |- *.
      destruct (text_or_empty v) as [txt | e]; [| discriminate].
      simpl in Hb |- *. injection Hb as <-.
      eexists. split; [reflexivity |].
      intros Hi. exact (includes_trans _ _ _ Hi Sub).
Qed.

End UseSearchFacts.

Section UseSearchWitnesses.
Import JS JSString UseSearch MoreSamples.

Lemma json_reads_return : @reads_return json_runtime.
Proof.
  intros v key N. destruct v; simpl in *; [discriminate | eauto | eauto].
Qed.

Lemma json_text_returns : @text_returns json_runtime.
Proof.
  intros v. destruct v; simpl; eauto.
Qed.

Lemma json_strings_not_nullish : @strings_not_nullish json_runtime.
Proof.
  intros s. reflexivity.
Qed.

Lemma getNestedValue_safe_witness :
  @reads_return json_runtime
  /\ @strings_not_nullish json_runtime
  /\ exists x, @getNestedValue json_runtime record_b "patients.full_name"
               = Return x
               /\ @is_nullish json_runtime x = false.
Proof.
  split; [exact json_reads_return |].
  split; [exact json_strings_not_nullish |].
  apply (@getNestedValue_safe json_runtime record_b "patients.full_name"
                              json_reads_return json_strings_not_nullish).
Defined.

Lemma filteredData_is_a_filter_witness :
  @reads_return json_runtime
  /\ @strings_not_nullish json_runtime
  /\ @text_returns json_runtime
  /\ "Omar"%string <> EmptyString
  /\ (@min_chars record_fields <= Z.of_nat (js_length "Omar"))%Z
  /\ exists keep,
      @filteredData json_runtime [record_a; record_b] record_fields "Omar"
      = Return (filter keep [record_a; record_b]).
Proof.
  assert (Hne : "Omar"%string <> EmptyString) by discriminate.
  assert (Hmin : (@min_chars record_fields
                  <= Z.of_nat (js_length "Omar"))%Z) by (vm_compute;
                                                         discriminate).
  split; [exact json_reads_return |].
  split; [exact json_strings_not_nullish |].
  split; [exact json_text_returns |].
  split; [exact Hne |]. split; [exact Hmin |].
  destruct (proj2 (@filteredData_is_a_filter
                     json_runtime [record_a; record_b] record_fields "Omar")
                  json_reads_return json_strings_not_nullish
                  json_text_returns Hne Hmin) as (keep & _ & E & _).
  exists keep. exact E.
Defined.

Lemma case_sensitive_search_narrows_witness :
  truthy_bool (caseSensitive record_fields) = true
  /\ includes "Omar" "Om" = true
  /\ @filteredData json_runtime [record_a; record_b] record_fields "Om"
     = Return [record_a]
  /\ @filteredData json_runtime [record_a; record_b] record_fields "Omar"
     = Return [record_a]
  /\ incl [record_a] [record_a].
Proof.
  split; [reflexivity |]. split; [reflexivity |].
  split; [reflexivity |]. split; [reflexivity |].
  apply (@case_sensitive_search_narrows
           json_runtime [record_a; record_b] [record_a] [record_a]
           record_fields "Om" "Omar" eq_refl eq_refl eq_refl eq_refl).
Defined.

End UseSearchWitnesses.
